(** * PlaneWave Delta-T dew heater driver: protocol core

    Shallow embedding of [drivers/auxiliary/planewave_delta.cpp]:
    the checksum, the write/read exchange with its retry loop, the
    version handshake, heater discovery and the property life cycle. *)

From Stdlib Require Import ZArith Lia Bool String Ascii QArith List.
From Stdlib.Strings Require Import Byte.
From Stdlib Require Import DecimalString DecimalZ.
Import ListNotations.

Local Open Scope Z_scope.

(** ** Machine integers *)

Module MachInt.

(** [uint8_t] *)
Definition u8 (z : Z) : Z := z mod 256.

(** [uint16_t] *)
Definition u16 (z : Z) : Z := z mod 65536.

(** [uint32_t] *)
Definition u32 (z : Z) : Z := z mod 4294967296.

(** [int32_t] / [int], two's complement wrap-around. *)
Definition s32 (z : Z) : Z := (z + 2147483648) mod 4294967296 - 2147483648.

End MachInt.
Import MachInt.

(** ** Characters and buffers *)

(** Whether plain [char] is a signed type is fixed by the platform ABI,
    not by the program (signed on x86, unsigned on ARM Linux). *)
Class Platform : Set := { CHAR_SIGNED : bool }.

(** The byte value [0..255] of a [char] object. *)
Definition uchar (c : byte) : Z := Z.of_N (Byte.to_N c).

(** The value of a [signed char] with the same representation. *)
Definition schar (c : byte) : Z := if uchar c <? 128 then uchar c else uchar c - 256.

(** Integral promotion of a plain [char] to [int]. *)
Definition char_to_int {platform : Platform} (c : byte) : Z :=
  if CHAR_SIGNED then schar c else uchar c.

(** Conversion of an integer to [char]: the low eight bits are kept. *)
Definition char_of_Z (z : Z) : byte :=
  match Byte.of_N (Z.to_N (u8 z)) with
  | Some b => b
  | None => x00
  end.

(** A [char] array; reading outside it is not defined by the language,
    the model reads zero there. *)
Definition buffer := list byte.

Definition load (buf : buffer) (i : Z) : byte := nth (Z.to_nat i) buf x00.

Fixpoint store_nat (buf : buffer) (i : nat) (c : byte) : buffer :=
  match buf, i with
  | [], _ => []
  | _ :: tl, O => c :: tl
  | hd :: tl, S i' => hd :: store_nat tl i' c
  end.

Definition store (buf : buffer) (i : Z) (c : byte) : buffer :=
  if i <? 0 then buf else store_nat buf (Z.to_nat i) c.

(** [char buf[n] = {0}] *)
Definition zeroed (n : nat) : buffer := repeat x00 n.

(** ** Checksum *)

(** The index values taken by [for (uint32_t i = from; i < bound; i++)]. *)
Definition for_range (from bound : Z) : list Z :=
  map (fun k => from + Z.of_nat k) (seq 0 (Z.to_nat (bound - from))).

(** [uint8_t DeltaT::calculateCheckSum(const char *cmd, uint32_t len)].
    The bound [len - 1] is computed in [uint32_t]; the accumulator is an
    [int32_t], whose overflow (out of reach below 2^24 bytes) is written
    as wrap-around. *)
Definition calculateCheckSum {platform : Platform} (cmd : buffer) (len : Z) : Z :=
  let sum :=
    fold_left (fun sum i => s32 (sum + char_to_int (load cmd i)))
              (for_range 1 (u32 (len - 1))) 0 in
  u8 (Z.land (s32 (- sum)) 255).

(** The checksum as the protocol describes it: negated sum of the
    signed byte values at indices 1 .. len-2, masked to eight bits. *)
Definition signed_sum (bs : list byte) : Z :=
  fold_right (fun c acc => schar c + acc) 0 bs.

Definition covered (b : buffer) (len : Z) : list byte :=
  firstn (Z.to_nat (len - 2)) (skipn 1 b).

Definition twos_complement_checksum (b : buffer) (len : Z) : Z :=
  Z.land (- signed_sum (covered b len)) 255.

(** ** Serial line *)

(** Modelled from the spec: the byte-stream connection reports success
    or an error on every write and read.  [indicom.h], which declares
    the return codes, is not among the sources; the errors carry the
    names of its [TTY_ERROR] enumeration.  The driver only tests a
    return code against [TTY_OK]. *)
Inductive TTY_ERROR : Set :=
| TTY_OK | TTY_READ_ERROR | TTY_WRITE_ERROR | TTY_SELECT_ERROR | TTY_TIME_OUT
| TTY_PORT_FAILURE | TTY_PARAM_ERROR | TTY_ERRNO | TTY_OVERFLOW | TTY_PORT_BUSY.

Definition is_TTY_OK (rc : TTY_ERROR) : bool :=
  match rc with TTY_OK => true | _ => false end.

(** Modelled from the spec: the serial helpers of [indicom.h] on the
    port behind [PortFD], as the connection of the design: [tty_write]
    takes the bytes to send and reports a return code, [tty_read] takes
    the number of bytes wanted and the timeout and reports a return
    code and the bytes it placed in the buffer.  ([PortFD] itself, read
    from the connection plugin by [Handshake], is the port state the
    computations below are run on.) *)
Class Transport (T : Type) : Type := {
  tty_write : T -> list byte -> TTY_ERROR * T;
  tty_read : T -> Z -> Z -> TTY_ERROR * list byte * T
}.

(** ** Observable effects *)

Inductive log_level : Set := LDebug | LInfo | LError.

Inductive log_msg : Set :=
| MsgCmd (hex : string)                 (* "CMD <%s>" *)
| MsgRes (hex : string)                 (* "RES <%s>" *)
| MsgSerialWriteError (rc : TTY_ERROR)  (* "Serial write error: %s." *)
| MsgSerialReadError (rc : TTY_ERROR)   (* "Serial read error: %s." *)
| MsgInvalidChecksum                    (* "Invalid checksum!" *)
| MsgDetectedVersion (v : string)       (* "Detected version %s" *)
| MsgDetectedHeaters (n : Z).           (* "Detected %d heaters" *)

Inductive event : Set :=
| EvWrite (data : list byte) (rc : TTY_ERROR)
| EvRead (nbytes timeout : Z) (rc : TTY_ERROR)
| EvSleep (usec : Z)
| EvLog (lvl : log_level) (msg : log_msg)
| EvDefineText (name : string)
| EvDefineSwitch (name : string)
| EvDefineNumber (name : string)
| EvDeleteProperty (name : string).

(** Computations on the port that record what they do. *)
Definition M (T A : Type) : Type := T -> A * T * list event.

Definition ret {T A} (a : A) : M T A := fun p => (a, p, []).

Definition bind {T A B} (m : M T A) (k : A -> M T B) : M T B :=
  fun p =>
    let '(a, p1, tr1) := m p in
    let '(b, p2, tr2) := k a p1 in
    (b, p2, tr1 ++ tr2).

Definition emit {T} (e : event) : M T unit := fun p => (tt, p, [e]).

Definition emit_all {T} (es : list event) : M T unit := fun p => (tt, p, es).

Notation "x <- m ;; k" := (bind m (fun x => k))
  (at level 61, m at next level, right associativity).
Notation "' pat <- m ;; k" := (bind m (fun x => match x with pat => k end))
  (at level 61, pat pattern, m at next level, right associativity).
Notation "m ;;; k" := (bind m (fun _ => k))
  (at level 61, right associativity).

Definition result_of {T A} (r : A * T * list event) : A := fst (fst r).
Definition port_of {T A} (r : A * T * list event) : T := snd (fst r).
Definition trace_of {T A} (r : A * T * list event) : list event := snd r.

(** ** Constants of [planewave_delta.h] *)

(** The header is not part of the sources at hand; its constants are
    parameters of the model. *)
Class Header : Set := {
  DRIVER_SOM : byte;
  DRIVER_LEN : nat;
  DRIVER_TIMEOUT : Z;
  DEVICE_PC : byte;
  DEVICE_DELTA : byte;
  CMD_GET_VERSION : byte;
  COH_NUMHEATERS : byte;
  MAXINDINAME : nat
}.

(** ** Formatting *)

(** [std::to_string] on an [int]. *)
Definition to_string (z : Z) : string := NilZero.string_of_int (Z.to_int z).

Definition hex_digit (n : Z) : ascii :=
  nth (Z.to_nat n) (list_ascii_of_string "0123456789ABCDEF") "0"%char.

(** [sprintf(.., "%02X ", static_cast<uint8_t>(c))] *)
Definition hex_byte (c : byte) : string :=
  String (hex_digit (uchar c / 16)) (String (hex_digit (uchar c mod 16)) " ").

(** [void DeltaT::hexDump(char *buf, const char *data, uint32_t size)],
    on a zero-filled [buf]; the result is the C string left in [buf]. *)
Definition hexDump (data : buffer) (size : Z) : string :=
  let buf :=
    fold_left (fun buf i => (buf ++ hex_byte (load data i))%string)
              (for_range 0 size) EmptyString in
  if 0 <? size then substring 0 (Z.to_nat (3 * size - 1)) buf else buf.

(** [snprintf(dst, size, ..)]: at most [size - 1] characters are kept. *)
Definition snprintf (size : nat) (s : string) : string :=
  substring 0 (Nat.pred size) s.

(** ** Host property records (INDI API) *)

(** Modelled from the spec: the property records of the host framework
    ([indiapi.h] is not among the sources).  Each record keeps the
    arguments of the [IUFill..] call that fills it, under the field
    names of the INDI structures. *)

Inductive ISState : Set := ISS_OFF | ISS_ON.
Inductive IPState : Set := IPS_IDLE | IPS_OK | IPS_BUSY | IPS_ALERT.
Inductive IPerm : Set := IP_RO | IP_WO | IP_RW.
Inductive ISRule : Set := ISR_1OFMANY | ISR_ATMOST1 | ISR_NOFMANY.

(** What [IUFillSwitch] stores. *)
Record ISwitch : Set := {
  sw_name : string;
  sw_label : string;
  sw_s : ISState
}.

(** An [ISwitch[2]] indexed by the enumerators [HEATER_ON], [HEATER_OFF]. *)
Record HeaterSwitches : Set := {
  at_HEATER_ON : ISwitch;
  at_HEATER_OFF : ISwitch
}.

(** What [IUFillSwitchVector] stores. *)
Record ISwitchVectorProperty : Set := {
  svp_sp : HeaterSwitches;
  svp_nsp : Z;
  svp_device : string;
  svp_name : string;
  svp_label : string;
  svp_group : string;
  svp_p : IPerm;
  svp_r : ISRule;
  svp_timeout : Z;
  svp_s : IPState
}.

(** What [IUFillNumber] stores; the [double] arguments are kept as the
    decimal literals of the call. *)
Record INumber : Set := {
  num_name : string;
  num_label : string;
  num_format : string;
  num_min : Q;
  num_max : Q;
  num_step : Q;
  num_value : Q
}.

(** An [INumber[2]] indexed by [PARAM_PERIOD], [PARAM_DUTY]. *)
Record HeaterNumbers : Set := {
  at_PARAM_PERIOD : INumber;
  at_PARAM_DUTY : INumber
}.

(** What [IUFillNumberVector] stores. *)
Record INumberVectorProperty : Set := {
  nvp_np : HeaterNumbers;
  nvp_nnp : Z;
  nvp_device : string;
  nvp_name : string;
  nvp_label : string;
  nvp_group : string;
  nvp_p : IPerm;
  nvp_timeout : Z;
  nvp_s : IPState
}.

(** ** The driver object *)

Record DeltaT : Set := {
  deviceName : string;               (* getDeviceName() *)
  isConnected : bool;                (* isConnected() *)
  InfoT : string;                    (* InfoT[INFO_VERSION].text *)
  HeaterControlSP : list ISwitchVectorProperty;
  HeaterControlS : list HeaterSwitches;
  HeaterParamNP : list INumberVectorProperty;
  HeaterParamN : list HeaterNumbers
}.

(** [InfoTP.name], set by [initProperties]. *)
Definition InfoTP_name : string := "INFO".

(** The object after [initProperties]. *)
Definition DeltaT_init (dev : string) : DeltaT :=
  {| deviceName := dev; isConnected := false; InfoT := "NA";
     HeaterControlSP := []; HeaterControlS := [];
     HeaterParamNP := []; HeaterParamN := [] |}.

Definition IUSaveText (self : DeltaT) (text : string) : DeltaT :=
  {| deviceName := deviceName self; isConnected := isConnected self;
     InfoT := text;
     HeaterControlSP := HeaterControlSP self; HeaterControlS := HeaterControlS self;
     HeaterParamNP := HeaterParamNP self; HeaterParamN := HeaterParamN self |}.

Definition setConnected (self : DeltaT) (b : bool) : DeltaT :=
  {| deviceName := deviceName self; isConnected := b;
     InfoT := InfoT self;
     HeaterControlSP := HeaterControlSP self; HeaterControlS := HeaterControlS self;
     HeaterParamNP := HeaterParamNP self; HeaterParamN := HeaterParamN self |}.

(** [HeaterControlSP.push_back(..); HeaterControlS.push_back(..)] *)
Definition push_back_control (self : DeltaT)
    (ControlSP : ISwitchVectorProperty) (ControlS : HeaterSwitches) : DeltaT :=
  {| deviceName := deviceName self; isConnected := isConnected self;
     InfoT := InfoT self;
     HeaterControlSP := HeaterControlSP self ++ [ControlSP];
     HeaterControlS := HeaterControlS self ++ [ControlS];
     HeaterParamNP := HeaterParamNP self; HeaterParamN := HeaterParamN self |}.

(** [HeaterParamNP.push_back(..); HeaterParamN.push_back(..)] *)
Definition push_back_param (self : DeltaT)
    (ControlNP : INumberVectorProperty) (ControlN : HeaterNumbers) : DeltaT :=
  {| deviceName := deviceName self; isConnected := isConnected self;
     InfoT := InfoT self;
     HeaterControlSP := HeaterControlSP self; HeaterControlS := HeaterControlS self;
     HeaterParamNP := HeaterParamNP self ++ [ControlNP];
     HeaterParamN := HeaterParamN self ++ [ControlN] |}.

(** ** The driver *)

(** How the retry loop of [sendCommand] is left. *)
Inductive loop_exit : Set :=
| ReturnedFalse (res : buffer)                 (* [return false] on a write error *)
| LoopExit (rc : TTY_ERROR) (res : buffer).    (* [break], or [j] reached its bound *)

(** [tty_read] fills the start of [buf]; the array keeps its size. *)
Fixpoint overwrite (buf data : list byte) : list byte :=
  match buf, data with
  | [], _ => []
  | _, [] => buf
  | _ :: bt, d :: dt => d :: overwrite bt dt
  end.

Section Driver.

Context {platform : Platform} {header : Header}.
Context {T : Type} {transport : Transport T}.

(** Body of [for (int j = 0; j < 3; j++)], [n] iterations left. *)
Fixpoint retry_loop (n : nat) (cmd res : buffer) (cmd_len res_len : Z)
    (rc : TTY_ERROR) : M T loop_exit :=
  match n with
  | O => ret (LoopExit rc res)
  | S n' =>
      emit (EvLog LDebug (MsgCmd (hexDump cmd cmd_len))) ;;;
      rc <- (fun p =>
               let data := firstn (Z.to_nat cmd_len) cmd in
               let '(rc, p') := tty_write p data in
               (rc, p', [EvWrite data rc])) ;;
      if negb (is_TTY_OK rc) then
        emit (EvLog LError (MsgSerialWriteError rc)) ;;;
        ret (ReturnedFalse res)
      else
        ' (rc, res) <- (fun p =>
               let '(rc, data, p') := tty_read p res_len DRIVER_TIMEOUT in
               ((rc, overwrite res (firstn (Z.to_nat res_len) data)), p',
                [EvRead res_len DRIVER_TIMEOUT rc])) ;;
        if is_TTY_OK rc then
          ret (LoopExit rc res)
        else
          emit (EvSleep 100000) ;;;
          retry_loop n' cmd res cmd_len res_len rc
  end.

(** The comparison [chk != res[res_len - 1]]: both sides are promoted
    to [int], [chk] from [uint8_t], the array element from [char]. *)
Definition checksum_differs (res : buffer) (res_len : Z) : bool :=
  let chk := calculateCheckSum res res_len in
  negb (chk =? char_to_int (load res (u32 (res_len - 1)))).

(** [bool DeltaT::sendCommand(const char *cmd, char *res,
                              uint32_t cmd_len, uint32_t res_len)];
    the contents of [res] are returned with the result. *)
Definition sendCommand (cmd res : buffer) (cmd_len res_len : Z)
    : M T (bool * buffer) :=
  exit <- retry_loop 3 cmd res cmd_len res_len TTY_OK ;;
  match exit with
  | ReturnedFalse res => ret (false, res)
  | LoopExit rc res =>
      if negb (is_TTY_OK rc) then
        emit (EvLog LError (MsgSerialReadError rc)) ;;;
        ret (false, res)
      else if checksum_differs res res_len then
        emit (EvLog LError MsgInvalidChecksum) ;;;
        ret (false, res)
      else
        emit (EvLog LDebug (MsgRes (hexDump res res_len))) ;;;
        ret (true, res)
  end.

(** The six byte query frame built by [Handshake] and by
    [initializeHeaters], which differ in the command code only. *)
Definition query_frame (command : byte) : buffer :=
  let cmd := zeroed DRIVER_LEN in
  let cmd := store cmd 0 DRIVER_SOM in
  let cmd := store cmd 1 (char_of_Z 3) in
  let cmd := store cmd 2 DEVICE_PC in
  let cmd := store cmd 3 DEVICE_DELTA in
  let cmd := store cmd 4 command in
  store cmd 5 (char_of_Z (calculateCheckSum cmd 6)).

(** [uint16_t bld = res[7] << 8 | res[8];] *)
Definition build_number (res : buffer) : Z :=
  u16 (Z.lor (Z.shiftl (char_to_int (load res 7)) 8) (char_to_int (load res 8))).

Definition version_string (res : buffer) : string :=
  (to_string (char_to_int (load res 5)) ++ "." ++
   to_string (char_to_int (load res 6)) ++
   " (" ++ to_string (build_number res) ++ ")")%string.

(** [bool DeltaT::Handshake()].  Its first statement,
    [PortFD = serialConnection->getPortFD()], stores the descriptor of
    the port in a member that the record [DeltaT] does not carry: the
    port state the computation is run on stands for it.  Nothing below
    speaks about [PortFD]. *)
Definition Handshake (self : DeltaT) : M T (bool * DeltaT) :=
  let cmd := query_frame CMD_GET_VERSION in
  let res := zeroed DRIVER_LEN in
  ' (ok, res) <- sendCommand cmd res 6 10 ;;
  if negb ok then ret (false, self)
  else
    let version := version_string res in
    let self := IUSaveText self version in
    emit (EvLog LInfo (MsgDetectedVersion version)) ;;;
    ret (true, self).

End Driver.

Section Heaters.

Context {platform : Platform} {header : Header}.
Context {T : Type} {transport : Transport T}.

(** One pass of the first loop of [initializeHeaters].  In the format
    "DEW_%ud" the conversion is [%u]; the [d] after it is printed as it
    stands. *)
Definition new_control (self : DeltaT) (i : Z) : ISwitchVectorProperty * HeaterSwitches :=
  let switchName := snprintf MAXINDINAME ("DEW_" ++ to_string i ++ "d") in
  let groupLabel := snprintf MAXINDINAME ("Dew #" ++ to_string i ++ "d") in
  let ControlS :=
    {| at_HEATER_ON := {| sw_name := "HEATER_ON"; sw_label := "On"; sw_s := ISS_OFF |};
       at_HEATER_OFF := {| sw_name := "HEATER_OFF"; sw_label := "OFF"; sw_s := ISS_ON |} |} in
  let ControlSP :=
    {| svp_sp := ControlS; svp_nsp := 2; svp_device := deviceName self;
       svp_name := switchName; svp_label := "Dew"; svp_group := groupLabel;
       svp_p := IP_RW; svp_r := ISR_1OFMANY; svp_timeout := 60; svp_s := IPS_IDLE |} in
  (ControlSP, ControlS).

(** One pass of the second loop of [initializeHeaters]. *)
Definition new_param (self : DeltaT) (i : Z) : INumberVectorProperty * HeaterNumbers :=
  let numberName := snprintf MAXINDINAME ("PARAM_" ++ to_string i ++ "d") in
  let groupLabel := snprintf MAXINDINAME ("Dew #" ++ to_string i ++ "d") in
  let ControlN :=
    {| at_PARAM_PERIOD :=
         {| num_name := "PARAM_PERIOD"; num_label := "Period"; num_format := "%.1f";
            num_min := 0.1; num_max := 60; num_step := 1; num_value := 1 |};
       at_PARAM_DUTY :=
         {| num_name := "PARAM_DUTY"; num_label := "Duty"; num_format := "%.f";
            num_min := 1; num_max := 100; num_step := 5; num_value := 1 |} |} in
  let ControlNP :=
    {| nvp_np := ControlN; nvp_nnp := 2; nvp_device := deviceName self;
       nvp_name := numberName; nvp_label := "Params"; nvp_group := groupLabel;
       nvp_p := IP_RW; nvp_timeout := 60; nvp_s := IPS_IDLE |} in
  (ControlNP, ControlN).

(** [for (uint8_t i = 0; i < nHeaters; i++) { .. push_back .. }], twice. *)
Definition create_heaters (self : DeltaT) (nHeaters : Z) : DeltaT :=
  let self :=
    fold_left (fun self i =>
                 let '(ControlSP, ControlS) := new_control self i in
                 push_back_control self ControlSP ControlS)
              (for_range 0 nHeaters) self in
  fold_left (fun self i =>
               let '(ControlNP, ControlN) := new_param self i in
               push_back_param self ControlNP ControlN)
            (for_range 0 nHeaters) self.

(** [bool DeltaT::initializeHeaters()] *)
Definition initializeHeaters (self : DeltaT) : M T (bool * DeltaT) :=
  let cmd := query_frame COH_NUMHEATERS in
  let res := zeroed DRIVER_LEN in
  ' (ok, res) <- sendCommand cmd res 6 6 ;;
  if negb ok then ret (false, self)
  else
    let nHeaters := u8 (char_to_int (load res 4)) in
    emit (EvLog LInfo (MsgDetectedHeaters nHeaters)) ;;;
    ret (true, create_heaters self nHeaters).

(** [bool DeltaT::updateProperties()]; the call of the base class
    method, which handles the properties of the framework itself, has
    no part in the model. *)
Definition updateProperties (self : DeltaT) : M T (bool * DeltaT) :=
  if isConnected self then
    ' (_, self) <- initializeHeaters self ;;
    emit (EvDefineText InfoTP_name) ;;;
    emit_all (map (fun oneSP => EvDefineSwitch (svp_name oneSP)) (HeaterControlSP self)) ;;;
    emit_all (map (fun oneNP => EvDefineNumber (nvp_name oneNP)) (HeaterParamNP self)) ;;;
    ret (true, self)
  else
    emit (EvDeleteProperty InfoTP_name) ;;;
    emit_all (map (fun oneSP => EvDeleteProperty (svp_name oneSP)) (HeaterControlSP self)) ;;;
    emit_all (map (fun oneNP => EvDeleteProperty (nvp_name oneNP)) (HeaterParamNP self)) ;;;
    ret (true, self).

(** [bool DeltaT::readVersion()] *)
Definition readVersion (self : DeltaT) : M T (bool * DeltaT) := ret (false, self).

(** [bool DeltaT::readReport()] *)
Definition readReport (self : DeltaT) : M T (bool * DeltaT) := ret (false, self).

(** [bool DeltaT::setPWMEnabled(bool enabled, double period, double duty)] *)
Definition setPWMEnabled (self : DeltaT) (enabled : bool) (period duty : Q)
    : M T (bool * DeltaT) := ret (false, self).

(** [bool DeltaT::forceReboot()] *)
Definition forceReboot (self : DeltaT) : M T (bool * DeltaT) := ret (false, self).

(** [bool DeltaT::forceReset()] *)
Definition forceReset (self : DeltaT) : M T (bool * DeltaT) := ret (false, self).

(** *** Calls from the host

    The driver is entered through the hooks it hands to the host
    framework: the handshake registered with the serial connection in
    [initProperties], and [updateProperties], which the framework calls
    once it has changed the connection state.  A session is a sequence
    of such calls; connect, disconnect, reconnect is
    [CallHandshake; CallUpdateProperties true; CallUpdateProperties false;
     CallHandshake; CallUpdateProperties true]. *)
Inductive host_call : Set :=
| CallHandshake
| CallUpdateProperties (connected : bool).

Definition host_step (self : DeltaT) (c : host_call) : M T DeltaT :=
  match c with
  | CallHandshake =>
      ' (_, self) <- Handshake self ;;
      ret self
  | CallUpdateProperties connected =>
      ' (_, self) <- updateProperties (setConnected self connected) ;;
      ret self
  end.

Fixpoint host_run (self : DeltaT) (cs : list host_call) : M T DeltaT :=
  match cs with
  | [] => ret self
  | c :: cs' =>
      self <- host_step self c ;;
      host_run self cs'
  end.

End Heaters.

(** ** Test doubles for the serial line *)

(** A port on which every write succeeds and the reads replay a script;
    once the script is used up the reads time out. *)
Definition ReplayPort : Type := list (TTY_ERROR * list byte).

#[export] Instance ReplayPort_Transport : Transport ReplayPort := {
  tty_write p _ := (TTY_OK, p);
  tty_read p _ _ :=
    match p with
    | [] => (TTY_TIME_OUT, [], [])
    | (rc, data) :: p' => (rc, data, p')
    end
}.

(** A port whose successful reads have their first byte replaced. *)
Record Garbled (T : Type) : Type := { inner : T; marker : byte }.
Arguments inner {T} _.
Arguments marker {T} _.

Definition garble (x : byte) (data : list byte) : list byte :=
  match data with
  | [] => []
  | _ :: tl => x :: tl
  end.

#[export] Instance Garbled_Transport {T} {transport : Transport T} : Transport (Garbled T) := {
  tty_write g data :=
    let '(rc, p) := tty_write (inner g) data in
    (rc, {| inner := p; marker := marker g |});
  tty_read g n t :=
    let '(rc, data, p) := tty_read (inner g) n t in
    (rc, garble (marker g) data, {| inner := p; marker := marker g |})
}.

(** A x86-64 build (plain [char] signed) and an ARM build (unsigned). *)
Definition signed_char_platform : Platform := {| CHAR_SIGNED := true |}.
Definition unsigned_char_platform : Platform := {| CHAR_SIGNED := false |}.

(** Values for the header constants used in the examples below. *)
Definition example_header : Header :=
  {| DRIVER_SOM := x3b; DRIVER_LEN := 32; DRIVER_TIMEOUT := 3;
     DEVICE_PC := x20; DEVICE_DELTA := x32;
     CMD_GET_VERSION := xfe; COH_NUMHEATERS := xb0;
     MAXINDINAME := 64 |}.

(** Two exits of the retry loop that agree but for the first byte left
    in the response buffer. *)
Definition same_exit (e e' : loop_exit) : Prop :=
  match e, e' with
  | ReturnedFalse r, ReturnedFalse r' => tl r = tl r'
  | LoopExit rc r, LoopExit rc' r' => rc = rc' /\ tl r = tl r'
  | _, _ => False
  end.

(** [self'] holds [k] more entries than [self] in each heater collection. *)
Definition grown_by (self self' : DeltaT) (k : Z) : Prop :=
  Z.of_nat (length (HeaterControlSP self')) = Z.of_nat (length (HeaterControlSP self)) + k /\
  Z.of_nat (length (HeaterControlS self')) = Z.of_nat (length (HeaterControlS self)) + k /\
  Z.of_nat (length (HeaterParamNP self')) = Z.of_nat (length (HeaterParamNP self)) + k /\
  Z.of_nat (length (HeaterParamN self')) = Z.of_nat (length (HeaterParamN self)) + k.

(** ** Frames used in the examples *)

(** A reply to the heater count query announcing four heaters; its
    last byte is the checksum of the bytes before it, [0xA7]. *)
Definition heater_count_reply : buffer := [x3b; x03; x32; x20; x04; xa7].

(** A reply announcing two heaters whose checksum, [0x69], is below [0x80]. *)
Definition heater_count_reply_low : buffer := [x3b; x03; x32; x60; x02; x69].

(** A ten byte reply to the version query: major 3, minor 2, build
    bytes [0x01], [0x2C]; checksum [0x77]. *)
Definition version_reply : buffer :=
  [x3b; x07; x32; x20; xfe; x03; x02; x01; x2c; x77].

(** A port that never answers. *)
Definition silent_port : ReplayPort := [].

(** ** Reading a trace *)

Definition write_codes (tr : list event) : list TTY_ERROR :=
  flat_map (fun e => match e with EvWrite _ rc => [rc] | _ => [] end) tr.

Definition read_codes (tr : list event) : list TTY_ERROR :=
  flat_map (fun e => match e with EvRead _ _ rc => [rc] | _ => [] end) tr.

Definition read_sizes (tr : list event) : list Z :=
  flat_map (fun e => match e with EvRead n _ _ => [n] | _ => [] end) tr.

Definition frames_written (tr : list event) : list (list byte) :=
  flat_map (fun e => match e with EvWrite data _ => [data] | _ => [] end) tr.

Definition sleeps (tr : list event) : list Z :=
  flat_map (fun e => match e with EvSleep us => [us] | _ => [] end) tr.

Definition error_logs (tr : list event) : list log_msg :=
  flat_map (fun e => match e with EvLog LError m => [m] | _ => [] end) tr.

Definition detected_heaters (tr : list event) : list Z :=
  flat_map (fun e => match e with
                     | EvLog LInfo (MsgDetectedHeaters n) => [n]
                     | _ => []
                     end) tr.

Definition total (l : list Z) : Z := fold_right Z.add 0 l.

(** The failure kinds of the design, told apart by the error message
    that [sendCommand] logs before it returns [false]. *)
Inductive failure : Set := IoError | ProtocolError.

Definition failures (tr : list event) : list failure :=
  flat_map (fun m => match m with
                     | MsgSerialWriteError _ | MsgSerialReadError _ => [IoError]
                     | MsgInvalidChecksum => [ProtocolError]
                     | _ => []
                     end) (error_logs tr).

(** The events of one pass of the retry loop whose read returned [rc]. *)
Definition attempt {header : Header} (cmd : buffer) (cmd_len res_len : Z)
    (rc : TTY_ERROR) : list event :=
  [EvLog LDebug (MsgCmd (hexDump cmd cmd_len));
   EvWrite (firstn (Z.to_nat cmd_len) cmd) TTY_OK;
   EvRead res_len DRIVER_TIMEOUT rc].

Definition failed_attempt {header : Header} (cmd : buffer) (cmd_len res_len : Z)
    (rc : TTY_ERROR) : list event :=
  attempt cmd cmd_len res_len rc ++ [EvSleep 100000].

(** The events of a pass whose write returned [rc], not [TTY_OK]. *)
Definition aborted_attempt (cmd : buffer) (cmd_len : Z) (rc : TTY_ERROR) : list event :=
  [EvLog LDebug (MsgCmd (hexDump cmd cmd_len));
   EvWrite (firstn (Z.to_nat cmd_len) cmd) rc;
   EvLog LError (MsgSerialWriteError rc)].

(** ** Shapes of an exchange *)

Section Shapes.

Context {platform : Platform} {header : Header}.

(** The three ways out of the retry loop and the trace of each. *)
Inductive loop_shape (cmd : buffer) (cmd_len res_len : Z) (n : nat) (rc0 : TTY_ERROR)
  : loop_exit -> list event -> Prop :=
| shape_exhausted rcs res' :
    Forall (fun rc => is_TTY_OK rc = false) rcs ->
    length rcs = n ->
    loop_shape cmd cmd_len res_len n rc0
      (LoopExit (last rcs rc0) res')
      (flat_map (failed_attempt cmd cmd_len res_len) rcs)
| shape_break rcs res' :
    Forall (fun rc => is_TTY_OK rc = false) rcs ->
    (length rcs < n)%nat ->
    loop_shape cmd cmd_len res_len n rc0
      (LoopExit TTY_OK res')
      (flat_map (failed_attempt cmd cmd_len res_len) rcs
         ++ attempt cmd cmd_len res_len TTY_OK)
| shape_write_error rcs rcw res' :
    Forall (fun rc => is_TTY_OK rc = false) rcs ->
    (length rcs < n)%nat ->
    is_TTY_OK rcw = false ->
    loop_shape cmd cmd_len res_len n rc0
      (ReturnedFalse res')
      (flat_map (failed_attempt cmd cmd_len res_len) rcs
         ++ aborted_attempt cmd cmd_len rcw).

(** The four ways [sendCommand] returns and the trace of each. *)
Inductive exchange_shape (cmd : buffer) (cmd_len res_len : Z)
  : bool * buffer -> list event -> Prop :=
| exchange_write_error rcs rcw res' :
    Forall (fun rc => is_TTY_OK rc = false) rcs ->
    (length rcs < 3)%nat ->
    is_TTY_OK rcw = false ->
    exchange_shape cmd cmd_len res_len (false, res')
      (flat_map (failed_attempt cmd cmd_len res_len) rcs
         ++ aborted_attempt cmd cmd_len rcw)
| exchange_read_error rcs rc res' :
    Forall (fun rc => is_TTY_OK rc = false) rcs ->
    length rcs = 3%nat ->
    is_TTY_OK rc = false ->
    exchange_shape cmd cmd_len res_len (false, res')
      (flat_map (failed_attempt cmd cmd_len res_len) rcs
         ++ [EvLog LError (MsgSerialReadError rc)])
| exchange_bad_checksum rcs res' :
    Forall (fun rc => is_TTY_OK rc = false) rcs ->
    (length rcs < 3)%nat ->
    checksum_differs res' res_len = true ->
    exchange_shape cmd cmd_len res_len (false, res')
      (flat_map (failed_attempt cmd cmd_len res_len) rcs
         ++ attempt cmd cmd_len res_len TTY_OK
         ++ [EvLog LError MsgInvalidChecksum])
| exchange_ok rcs res' :
    Forall (fun rc => is_TTY_OK rc = false) rcs ->
    (length rcs < 3)%nat ->
    checksum_differs res' res_len = false ->
    exchange_shape cmd cmd_len res_len (true, res')
      (flat_map (failed_attempt cmd cmd_len res_len) rcs
         ++ attempt cmd cmd_len res_len TTY_OK
         ++ [EvLog LDebug (MsgRes (hexDump res' res_len))]).

End Shapes.

(** ** Default state of a heater *)

(** The state of a heater as created: switched off ([HEATER_OFF] is
    the selected switch), period 1 in 0.1 .. 60 by steps of 1, duty 1 in
    1 .. 100 by steps of 5. *)
Definition control_defaults (sp : ISwitchVectorProperty) : Prop :=
  sw_s (at_HEATER_ON (svp_sp sp)) = ISS_OFF /\
  sw_s (at_HEATER_OFF (svp_sp sp)) = ISS_ON.

Definition param_defaults (np : INumberVectorProperty) : Prop :=
  let period := at_PARAM_PERIOD (nvp_np np) in
  let duty := at_PARAM_DUTY (nvp_np np) in
  num_value period = 1%Q /\ num_min period = 0.1%Q /\
  num_max period = 60%Q /\ num_step period = 1%Q /\
  num_value duty = 1%Q /\ num_min duty = 1%Q /\
  num_max duty = 100%Q /\ num_step duty = 5%Q.

(** ** Further observations *)

(** The buffer with the bytes at [i] and [j] exchanged. *)
Definition swap_bytes (b : buffer) (i j : Z) : buffer :=
  store (store b i (load b j)) j (load b i).

(** The two upper-case hexadecimal digits of a byte. *)
Definition hex_pair (c : byte) (rest : string) : string :=
  String (hex_digit (uchar c / 16)) (String (hex_digit (uchar c mod 16)) rest).

(** Bytes as pairs of hexadecimal digits separated by single spaces. *)
Fixpoint spaced_hex (bs : list byte) : string :=
  match bs with
  | [] => EmptyString
  | [c] => hex_pair c EmptyString
  | c :: rest => hex_pair c (String " " (spaced_hex rest))
  end.

(** The read return codes that are not [TTY_OK]. *)
Definition failed_reads (tr : list event) : list TTY_ERROR :=
  filter (fun rc => negb (is_TTY_OK rc)) (read_codes tr).

(** The properties a trace defines on, or deletes from, the host. *)
Definition host_updates (tr : list event) : list event :=
  filter (fun e => match e with
                   | EvDefineText _ | EvDefineSwitch _ | EvDefineNumber _
                   | EvDeleteProperty _ => true
                   | _ => false
                   end) tr.

(** A port whose writes follow a script as well: once the script of the
    writes is used up they succeed, once that of the reads is used up
    they time out. *)
Record ScriptedPort : Type := {
  write_results : list TTY_ERROR;
  replies : list (TTY_ERROR * list byte)
}.

#[export] Instance ScriptedPort_Transport : Transport ScriptedPort := {
  tty_write p _ :=
    match write_results p with
    | [] => (TTY_OK, p)
    | rc :: rest => (rc, {| write_results := rest; replies := replies p |})
    end;
  tty_read p _ _ :=
    match replies p with
    | [] => (TTY_TIME_OUT, [], p)
    | (rc, data) :: rest =>
        (rc, data, {| write_results := write_results p; replies := rest |})
    end
}.

(** * Properties *)

(** ** Arithmetic of the machine integers *)

Lemma u8_range z : 0 <= u8 z < 256.
Proof. unfold u8. apply Z.mod_pos_bound. lia. Qed.

Lemma s32_range z : -2147483648 <= s32 z < 2147483648.
Proof.
  unfold s32.
  pose proof (Z.mod_pos_bound (z + 2147483648) 4294967296 ltac:(lia)). lia.
Qed.

Lemma s32_small z : -2147483648 <= z < 2147483648 -> s32 z = z.
Proof. intros H. unfold s32. rewrite Z.mod_small; lia. Qed.

Lemma s32_mod256 z : (s32 z) mod 256 = z mod 256.
Proof.
  unfold s32.
  rewrite (Z.mod_eq (z + 2147483648) 4294967296) by lia.
  replace (z + 2147483648 - 4294967296 * ((z + 2147483648) / 4294967296) - 2147483648)
    with (z + (- (16777216 * ((z + 2147483648) / 4294967296))) * 256) by lia.
  apply Z.mod_add. lia.
Qed.

Lemma land_255 z : Z.land z 255 = z mod 256.
Proof. change 255 with (Z.ones 8). rewrite Z.land_ones by lia. reflexivity. Qed.

Lemma neg_mod256 a b : a mod 256 = b mod 256 -> (- a) mod 256 = (- b) mod 256.
Proof.
  intros H.
  rewrite (Z.div_mod a 256), (Z.div_mod b 256), H by lia.
  replace (- (256 * (a / 256) + b mod 256))
    with (- (b mod 256) + (- (a / 256)) * 256) by lia.
  replace (- (256 * (b / 256) + b mod 256))
    with (- (b mod 256) + (- (b / 256)) * 256) by lia.
  rewrite !Z.mod_add by lia. reflexivity.
Qed.

Lemma add_mod256 a b c : a mod 256 = b mod 256 -> (a + c) mod 256 = (b + c) mod 256.
Proof.
  intros H. rewrite (Z.add_mod a c), (Z.add_mod b c), H by lia. reflexivity.
Qed.

Lemma u32_small z : 0 <= z < 4294967296 -> u32 z = z.
Proof. intros Hz. unfold u32. apply Z.mod_small. lia. Qed.

Lemma u8_small z : 0 <= z < 256 -> u8 z = z.
Proof. intros Hz. unfold u8. apply Z.mod_small. lia. Qed.

(** ** Characters *)

Lemma uchar_range c : 0 <= uchar c < 256.
Proof.
  unfold uchar. pose proof (Byte.to_N_bounded c). lia.
Qed.

Lemma schar_range c : -128 <= schar c < 128.
Proof.
  unfold schar. pose proof (uchar_range c).
  destruct (Z.ltb_spec (uchar c) 128); lia.
Qed.

Lemma schar_mod256 c : schar c mod 256 = uchar c.
Proof.
  unfold schar. pose proof (uchar_range c).
  destruct (Z.ltb_spec (uchar c) 128).
  - apply Z.mod_small. lia.
  - replace (uchar c - 256) with (uchar c + (-1) * 256) by lia.
    rewrite Z.mod_add by lia. apply Z.mod_small. lia.
Qed.

Lemma char_to_int_mod256 {platform : Platform} c : char_to_int c mod 256 = uchar c.
Proof.
  unfold char_to_int. destruct CHAR_SIGNED.
  - apply schar_mod256.
  - apply Z.mod_small, uchar_range.
Qed.

Lemma uchar_inj c d : uchar c = uchar d -> c = d.
Proof.
  unfold uchar. intros E. apply N2Z.inj in E.
  pose proof (Byte.of_to_N c) as Hc. pose proof (Byte.of_to_N d) as Hd.
  rewrite E in Hc. congruence.
Qed.

Lemma uchar_char_of_Z z : uchar (char_of_Z z) = u8 z.
Proof.
  unfold char_of_Z, uchar. pose proof (u8_range z) as Hr.
  destruct (Byte.of_N (Z.to_N (u8 z))) as [b|] eqn:E.
  - apply Byte.to_of_N in E. rewrite E. lia.
  - apply Byte.of_N_None_iff in E. lia.
Qed.

(** ** Buffers *)

Lemma store_nat_length buf i c : length (store_nat buf i c) = length buf.
Proof.
  revert i. induction buf as [|hd tl IH]; intros [|i]; simpl; auto.
Qed.

Lemma store_length buf i c : length (store buf i c) = length buf.
Proof.
  unfold store. destruct (i <? 0); auto using store_nat_length.
Qed.

Lemma nth_store_nat_other buf i j c :
  i <> j -> nth j (store_nat buf i c) x00 = nth j buf x00.
Proof.
  revert i j. induction buf as [|hd tl IH]; intros [|i] [|j] Hne; simpl; auto;
    try contradiction.
Qed.

Lemma nth_store_nat_same buf i c :
  (i < length buf)%nat -> nth i (store_nat buf i c) x00 = c.
Proof.
  revert i. induction buf as [|hd tl IH]; intros [|i] Hlt; simpl in *; try lia; auto.
  apply IH. lia.
Qed.

Lemma load_store_other buf i j c :
  0 <= j -> i <> j -> load (store buf i c) j = load buf j.
Proof.
  intros Hj Hne. unfold load, store.
  destruct (Z.ltb_spec i 0); auto.
  apply nth_store_nat_other. lia.
Qed.

Lemma load_store_same buf i c :
  0 <= i < Z.of_nat (length buf) -> load (store buf i c) i = c.
Proof.
  intros Hi. unfold load, store.
  destruct (Z.ltb_spec i 0); try lia.
  apply nth_store_nat_same. lia.
Qed.

Lemma in_for_range from bound i :
  In i (for_range from bound) -> from <= i < bound.
Proof.
  unfold for_range. rewrite in_map_iff. intros (k & <- & Hk).
  apply in_seq in Hk. lia.
Qed.

Lemma nth_seq_firstn (l : list byte) k :
  (k <= length l)%nat -> map (fun j => nth j l x00) (seq 0 k) = firstn k l.
Proof.
  revert k. induction l as [|a l IH]; intros [|k] Hk; simpl in *; try lia; auto.
  f_equal. rewrite <- seq_shift, map_map. apply IH. lia.
Qed.

Lemma nth_skipn_plus (l : list byte) n j :
  nth j (skipn n l) x00 = nth (n + j) l x00.
Proof.
  revert l. induction n as [|n IH]; intros [|a l]; simpl; auto.
  destruct j; reflexivity.
Qed.

Lemma load_for_range b (n k : nat) :
  (n + k <= length b)%nat ->
  map (load b) (for_range (Z.of_nat n) (Z.of_nat (n + k))) = firstn k (skipn n b).
Proof.
  intros Hle. unfold for_range. rewrite map_map.
  replace (Z.to_nat (Z.of_nat (n + k) - Z.of_nat n)) with k by lia.
  rewrite <- nth_seq_firstn by (rewrite length_skipn; lia).
  apply map_ext. intros j. unfold load.
  rewrite nth_skipn_plus. f_equal. lia.
Qed.

(** ** The checksum *)

Section Checksum.

Context {platform : Platform}.

(** The accumulator of the loop, modulo 256, is the sum of the signed
    byte values: neither the width of the accumulator nor the
    signedness of [char] shows in the low eight bits. *)
Lemma accumulate_mod256 cmd l acc :
  fold_left (fun sum i => s32 (sum + char_to_int (load cmd i))) l acc mod 256
  = (acc + signed_sum (map (load cmd) l)) mod 256.
Proof.
  revert acc. induction l as [|i l IH]; intros acc; simpl.
  - f_equal. lia.
  - rewrite IH.
    replace (acc + (schar (load cmd i) + signed_sum (map (load cmd) l)))
      with (acc + schar (load cmd i) + signed_sum (map (load cmd) l)) by lia.
    apply add_mod256. rewrite s32_mod256.
    rewrite !(Z.add_comm acc). apply add_mod256.
    rewrite char_to_int_mod256, schar_mod256. reflexivity.
Qed.

Lemma calculateCheckSum_mod cmd len :
  calculateCheckSum cmd len
  = (- signed_sum (map (load cmd) (for_range 1 (u32 (len - 1))))) mod 256.
Proof.
  unfold calculateCheckSum.
  rewrite land_255. unfold u8. rewrite Z.mod_mod by lia.
  rewrite s32_mod256. apply neg_mod256.
  rewrite accumulate_mod256. reflexivity.
Qed.

Lemma calculateCheckSum_range cmd len : 0 <= calculateCheckSum cmd len < 256.
Proof. unfold calculateCheckSum. apply u8_range. Qed.

(** Only the bytes at indices [1 .. len-2] are read. *)
Lemma calculateCheckSum_agree b b' len :
  (forall i, 1 <= i < u32 (len - 1) -> load b i = load b' i) ->
  calculateCheckSum b len = calculateCheckSum b' len.
Proof.
  intros Hag. rewrite !calculateCheckSum_mod. do 3 f_equal.
  apply map_ext_in. intros i Hi. apply Hag. apply in_for_range. exact Hi.
Qed.

Lemma calculateCheckSum_covered b len :
  2 <= len < 4294967296 ->
  len <= Z.of_nat (length b) ->
  calculateCheckSum b len = twos_complement_checksum b len.
Proof.
  intros Hlen Hb. rewrite calculateCheckSum_mod.
  unfold twos_complement_checksum, covered. rewrite land_255.
  rewrite u32_small by lia.
  pose proof (load_for_range b 1 (Z.to_nat (len - 2)) ltac:(lia)) as E.
  replace (Z.of_nat (1 + Z.to_nat (len - 2))) with (len - 1) in E by lia.
  change (Z.of_nat 1) with 1 in E. rewrite E. reflexivity.
Qed.

End Checksum.

(** C1. For a buffer [b] holding at least [len] bytes, [len >= 2],
    [calculateCheckSum b len] is the two's-complement checksum of the
    bytes [b[1] .. b[len-2]]: the negated sum of their signed 8-bit
    values, masked with [0xFF].  The bytes [b[0]] and [b[len-1]] do not
    contribute: overwriting them leaves the result unchanged. *)
Theorem calculateCheckSum_spec (platform : Platform) (b : buffer) (len : Z) :
  2 <= len < 4294967296 ->
  len <= Z.of_nat (length b) ->
  calculateCheckSum b len = Z.land (- signed_sum (covered b len)) 255 /\
  forall x y : byte,
    calculateCheckSum (store (store b 0 x) (len - 1) y) len = calculateCheckSum b len.
Proof.
  intros Hlen Hb. split.
  - apply calculateCheckSum_covered; assumption.
  - intros x y. apply calculateCheckSum_agree. intros i Hi.
    rewrite u32_small in Hi by lia.
    rewrite !load_store_other by lia. reflexivity.
Qed.

(** ** The exchange *)

Lemma is_TTY_OK_true rc : is_TTY_OK rc = true -> rc = TTY_OK.
Proof. destruct rc; simpl; congruence. Qed.

Lemma last_cons_default {A} (a d : A) l : last (a :: l) d = last l a.
Proof.
  revert a d. induction l as [|b l IH]; intros a d; [reflexivity|].
  change (last (a :: b :: l) d) with (last (b :: l) d).
  rewrite (IH b d), (IH b a). reflexivity.
Qed.

Section Exchange.

Context {platform : Platform} {header : Header}.
Context {T : Type} {transport : Transport T}.

Lemma retry_loop_shape n cmd cmd_len res_len : forall res rc0 p,
  loop_shape cmd cmd_len res_len n rc0
    (result_of (retry_loop n cmd res cmd_len res_len rc0 p))
    (trace_of (retry_loop n cmd res cmd_len res_len rc0 p)).
Proof.
  induction n as [|n IH]; intros res rc0 p.
  - apply (shape_exhausted _ _ _ _ _ [] res); auto.
  - cbn [retry_loop]. unfold bind, emit, ret, result_of, trace_of.
    destruct (tty_write p (firstn (Z.to_nat cmd_len) cmd)) as [rcw p1].
    destruct (is_TTY_OK rcw) eqn:Ew; cbn.
    + apply is_TTY_OK_true in Ew. subst rcw.
      destruct (tty_read p1 res_len DRIVER_TIMEOUT) as [[rcr data] p2].
      destruct (is_TTY_OK rcr) eqn:Er; cbn.
      * apply is_TTY_OK_true in Er. subst rcr.
        apply (shape_break _ _ _ _ _ [] _); auto. simpl; lia.
      * specialize (IH (overwrite res (firstn (Z.to_nat res_len) data)) rcr p2).
        unfold result_of, trace_of in IH.
        destruct (retry_loop n cmd _ cmd_len res_len rcr p2) as [[ex p3] tr3].
        cbn in *.
        inversion IH as [rcs res' Hf Hl | rcs res' Hf Hl | rcs rcw' res' Hf Hl Hw]; subst.
        -- rewrite <- last_cons_default with (d := rc0).
           apply (shape_exhausted _ _ _ _ _ (rcr :: rcs) res'); auto.
        -- apply (shape_break _ _ _ _ _ (rcr :: rcs) res'); auto. simpl; lia.
        -- apply (shape_write_error _ _ _ _ _ (rcr :: rcs) rcw' res'); auto.
           simpl; lia.
    + apply (shape_write_error _ _ _ _ _ [] rcw res); auto. simpl; lia.
Qed.

Lemma Forall_last {A} (P : A -> Prop) l d :
  Forall P l -> l <> [] -> P (last l d).
Proof.
  intros HF Hne. destruct (exists_last Hne) as (l' & a & ->).
  rewrite last_last. apply Forall_app in HF. destruct HF as [_ HF].
  inversion HF; assumption.
Qed.

Lemma sendCommand_shape cmd res cmd_len res_len p :
  exchange_shape cmd cmd_len res_len
    (result_of (sendCommand cmd res cmd_len res_len p))
    (trace_of (sendCommand cmd res cmd_len res_len p)).
Proof.
  pose proof (retry_loop_shape 3 cmd cmd_len res_len res TTY_OK p) as Hs.
  unfold sendCommand, bind, emit, ret, result_of, trace_of in *.
  destruct (retry_loop 3 cmd res cmd_len res_len TTY_OK p) as [[ex p'] tr].
  cbn in Hs.
  inversion Hs as [rcs res' Hf Hl | rcs res' Hf Hl | rcs rcw res' Hf Hl Hw]; subst.
  - assert (Hlast : is_TTY_OK (last rcs TTY_OK) = false).
    { apply (Forall_last (fun rc => is_TTY_OK rc = false)); auto.
      destruct rcs; simpl in *; congruence. }
    rewrite Hlast. cbn.
    apply exchange_read_error; auto.
  - cbn. destruct (checksum_differs res' res_len) eqn:Ec; cbn.
    + rewrite <- app_assoc. apply exchange_bad_checksum; auto.
    + rewrite <- app_assoc. apply exchange_ok; auto.
  - cbn. rewrite app_nil_r. apply exchange_write_error; auto.
Qed.

(** What the observers see in a run of failed attempts. *)
Lemma failed_attempts_observed cmd cmd_len res_len rcs :
  let tr := flat_map (failed_attempt cmd cmd_len res_len) rcs in
  write_codes tr = repeat TTY_OK (length rcs) /\
  read_codes tr = rcs /\
  read_sizes tr = repeat res_len (length rcs) /\
  sleeps tr = repeat 100000 (length rcs) /\
  error_logs tr = [].
Proof.
  induction rcs as [|rc rcs IH]; cbn.
  - repeat split.
  - cbn in IH. destruct IH as (Hw & Hr & Hn & Hsl & He).
    unfold write_codes, read_codes, read_sizes, sleeps, error_logs in *.
    rewrite Hw, Hr, Hn, Hsl, He. repeat split.
Qed.

End Exchange.

(** ** Retries *)

(** After [sendCommand_shape], list the failed attempts one by one:
    there are at most three. *)
Ltac enumerate_attempts rcs Hlen :=
  destruct rcs as [|? [|? [|? [|? ?]]]]; cbn in Hlen; try lia; try discriminate Hlen.

Ltac forall_inv :=
  repeat match goal with
         | H : Forall _ (_ :: _) |- _ => inversion H; clear H; subst
         | H : Forall _ [] |- _ => clear H
         end.

(** C3 (amended). If no write fails and every read fails, [sendCommand]
    writes the command exactly three times, sleeps 100 ms after each of
    the three failed reads (the last one included) and fails with an I/O
    error.  If the second read of the exchange returns [TTY_OK], the
    first read had failed, no read follows the good one, the command is
    written exactly twice, there is a single 100 ms sleep, no I/O error
    is reported and the outcome is that of the checksum comparison. *)
Theorem sendCommand_retry_bound (platform : Platform) (header : Header)
    (T : Type) (transport : Transport T)
    (cmd res : buffer) (cmd_len res_len : Z) (p : T) :
  let r := sendCommand cmd res cmd_len res_len p in
  (Forall (fun rc => rc = TTY_OK) (write_codes (trace_of r)) ->
   Forall (fun rc => rc <> TTY_OK) (read_codes (trace_of r)) ->
   fst (result_of r) = false /\
   length (write_codes (trace_of r)) = 3%nat /\
   length (read_codes (trace_of r)) = 3%nat /\
   sleeps (trace_of r) = [100000; 100000; 100000] /\
   failures (trace_of r) = [IoError])
  /\
  (forall rc1 rest, read_codes (trace_of r) = rc1 :: TTY_OK :: rest ->
   rest = [] /\
   rc1 <> TTY_OK /\
   write_codes (trace_of r) = [TTY_OK; TTY_OK] /\
   sleeps (trace_of r) = [100000] /\
   ~ In IoError (failures (trace_of r)) /\
   fst (result_of r) = negb (checksum_differs (snd (result_of r)) res_len)).
Proof.
  intros r. subst r.
  pose proof (sendCommand_shape cmd res cmd_len res_len p) as Hs.
  destruct (sendCommand cmd res cmd_len res_len p) as [[[ok res'] p'] tr].
  unfold result_of, trace_of in *. cbn [fst snd] in *.
  split.
  - intros Hw Hr.
    inversion Hs as [rcs rcw r' Hf Hl Hrc | rcs rc r' Hf Hl Hrc
                    | rcs r' Hf Hl Hc | rcs r' Hf Hl Hc]; subst;
      enumerate_attempts rcs Hl; cbn in Hw, Hr; forall_inv;
      try congruence; try (cbn in Hrc; congruence).
    cbn. repeat split.
  - intros rc1 rest Hr.
    inversion Hs as [rcs rcw r' Hf Hl Hrc | rcs rc r' Hf Hl Hrc
                    | rcs r' Hf Hl Hc | rcs r' Hf Hl Hc]; subst;
      enumerate_attempts rcs Hl; cbn in Hr; try discriminate Hr;
      forall_inv; inversion Hr; subst;
      try (cbn in *; congruence).
    + rewrite Hc. cbn. repeat split.
      * intros E. subst rc1. cbn in *. congruence.
      * intros [E|[]]. discriminate E.
    + rewrite Hc. cbn. repeat split.
      * intros E. subst rc1. cbn in *. congruence.
      * intros [].
Qed.

(** ** Checksum mismatch *)

Lemma failed_codes_not_ok rcs :
  Forall (fun rc => is_TTY_OK rc = false) rcs -> ~ In TTY_OK rcs.
Proof.
  intros HF Hin. rewrite Forall_forall in HF. apply HF in Hin. discriminate Hin.
Qed.

(** C4. When a read of the exchange succeeds and the recomputed
    checksum differs from the last byte of the response, [sendCommand]
    returns [false]; the only error reported is the checksum error (a
    protocol error, no I/O error); and the trace ends with the
    successful read followed by that report: nothing is written or read
    after the read that delivered the frame, and no earlier read
    succeeded. *)
Theorem sendCommand_checksum_mismatch (platform : Platform) (header : Header)
    (T : Type) (transport : Transport T)
    (cmd res : buffer) (cmd_len res_len : Z) (p : T) :
  let r := sendCommand cmd res cmd_len res_len p in
  In TTY_OK (read_codes (trace_of r)) ->
  checksum_differs (snd (result_of r)) res_len = true ->
  fst (result_of r) = false /\
  failures (trace_of r) = [ProtocolError] /\
  ProtocolError <> IoError /\
  error_logs (trace_of r) = [MsgInvalidChecksum] /\
  exists pre,
    trace_of r = pre ++ [EvRead res_len DRIVER_TIMEOUT TTY_OK;
                         EvLog LError MsgInvalidChecksum] /\
    ~ In TTY_OK (read_codes pre) /\
    (length (write_codes pre) <= 3)%nat.
Proof.
  intros r. subst r.
  pose proof (sendCommand_shape cmd res cmd_len res_len p) as Hs.
  destruct (sendCommand cmd res cmd_len res_len p) as [[[ok res'] p'] tr].
  unfold result_of, trace_of in *. cbn [fst snd] in *.
  intros Hin Hdiff.
  inversion Hs as [rcs rcw r' Hf Hl Hrc | rcs rc r' Hf Hl Hrc
                  | rcs r' Hf Hl Hc | rcs r' Hf Hl Hc]; subst.
  - exfalso. apply (failed_codes_not_ok rcs Hf).
    enumerate_attempts rcs Hl; cbn in Hin |- *; tauto.
  - exfalso. apply (failed_codes_not_ok rcs Hf).
    enumerate_attempts rcs Hl; cbn in Hin |- *; tauto.
  - split; [reflexivity|].
    split; [enumerate_attempts rcs Hl; reflexivity|].
    split; [discriminate|].
    split; [enumerate_attempts rcs Hl; reflexivity|].
    exists (flat_map (failed_attempt cmd cmd_len res_len) rcs
              ++ [EvLog LDebug (MsgCmd (hexDump cmd cmd_len));
                  EvWrite (firstn (Z.to_nat cmd_len) cmd) TTY_OK]).
    split; [rewrite <- app_assoc; reflexivity|].
    split.
    + intros Hpre. apply (failed_codes_not_ok rcs Hf).
      enumerate_attempts rcs Hl; cbn in Hpre |- *; tauto.
    + enumerate_attempts rcs Hl; cbn; lia.
  - congruence.
Qed.

(** ** Validation of the trailing checksum byte *)

Lemma signed_sum_app l1 l2 : signed_sum (l1 ++ l2) = signed_sum l1 + signed_sum l2.
Proof.
  induction l1 as [|c l1 IH]; simpl; [reflexivity|]. rewrite IH. lia.
Qed.

Lemma map_seq_offset from (a b : nat) : forall s,
  map (fun k => from + Z.of_nat k) (seq (s + a) b)
  = map (fun k => from + Z.of_nat a + Z.of_nat k) (seq s b).
Proof.
  induction b as [|b IH]; intros s; simpl; [reflexivity|].
  f_equal; [lia|]. apply (IH (S s)).
Qed.

Lemma for_range_split from mid bound :
  from <= mid <= bound ->
  for_range from bound = for_range from mid ++ for_range mid bound.
Proof.
  intros H. unfold for_range.
  replace (Z.to_nat (bound - from))
    with (Z.to_nat (mid - from) + Z.to_nat (bound - mid))%nat by lia.
  rewrite seq_app, map_app. f_equal.
  rewrite map_seq_offset. apply map_ext. intros k. lia.
Qed.

Lemma for_range_one i : for_range i (i + 1) = [i].
Proof.
  unfold for_range. replace (Z.to_nat (i + 1 - i)) with 1%nat by lia.
  simpl. f_equal. lia.
Qed.

Lemma neg_mod256_diff a b :
  (- a) mod 256 = (- b) mod 256 -> exists k, a - b = 256 * k.
Proof.
  intros E.
  pose proof (Z.div_mod (- a) 256 ltac:(lia)) as Ha.
  pose proof (Z.div_mod (- b) 256 ltac:(lia)) as Hb.
  exists ((- b) / 256 - (- a) / 256). lia.
Qed.

Section Validation.

Context {platform : Platform}.

(** Whatever the signedness of [char], an accepted frame carries the
    recomputed checksum in its last byte. *)
Lemma accepted_checksum_correct b len :
  checksum_differs b len = false ->
  uchar (load b (u32 (len - 1))) = calculateCheckSum b len.
Proof.
  unfold checksum_differs. intros E.
  apply negb_false_iff, Z.eqb_eq in E.
  pose proof (calculateCheckSum_range b len) as Hr.
  rewrite <- (char_to_int_mod256 (load b (u32 (len - 1)))), <- E.
  rewrite Z.mod_small by exact Hr. reflexivity.
Qed.

(** With unsigned [char] the converse holds. *)
Lemma correct_checksum_accepted_unsigned b len :
  CHAR_SIGNED = false ->
  uchar (load b (u32 (len - 1))) = calculateCheckSum b len ->
  checksum_differs b len = false.
Proof.
  intros Hu E. unfold checksum_differs, char_to_int. rewrite Hu, E.
  rewrite Z.eqb_refl. reflexivity.
Qed.

(** With signed [char] a correct trailing byte is accepted only when it
    is below [0x80]: from [0x80] on the array element is promoted to a
    negative [int], which no [uint8_t] value equals. *)
Lemma correct_checksum_accepted_signed b len :
  CHAR_SIGNED = true ->
  uchar (load b (u32 (len - 1))) = calculateCheckSum b len ->
  checksum_differs b len = (128 <=? calculateCheckSum b len).
Proof.
  intros Hs E. unfold checksum_differs, char_to_int, schar. rewrite Hs, E.
  pose proof (calculateCheckSum_range b len) as Hr.
  destruct (Z.ltb_spec (calculateCheckSum b len) 128) as [Hlt|Hge].
  - rewrite Z.eqb_refl. symmetry. apply Z.leb_gt. exact Hlt.
  - replace (calculateCheckSum b len =? calculateCheckSum b len - 256) with false
      by (symmetry; apply Z.eqb_neq; lia).
    symmetry. apply Z.leb_le. exact Hge.
Qed.

(** Changing one covered byte changes the checksum. *)
Lemma calculateCheckSum_mutated F len i v :
  2 <= len < 4294967296 ->
  len <= Z.of_nat (length F) ->
  1 <= i <= len - 2 ->
  v <> load F i ->
  calculateCheckSum (store F i v) len <> calculateCheckSum F len.
Proof.
  intros Hlen HF Hi Hv E.
  rewrite !calculateCheckSum_mod, u32_small in E by lia.
  rewrite (for_range_split 1 i (len - 1)) in E by lia.
  rewrite (for_range_split i (i + 1) (len - 1)) in E by lia.
  rewrite for_range_one in E.
  rewrite !map_app, !signed_sum_app in E. cbn [map signed_sum fold_right] in E.
  rewrite load_store_same in E by lia.
  rewrite (map_ext_in (load (store F i v)) (load F) (for_range 1 i)) in E
    by (intros j Hj; apply in_for_range in Hj; apply load_store_other; lia).
  rewrite (map_ext_in (load (store F i v)) (load F) (for_range (i + 1) (len - 1))) in E
    by (intros j Hj; apply in_for_range in Hj; apply load_store_other; lia).
  apply neg_mod256_diff in E. destruct E as [k Hk].
  pose proof (schar_range v) as Rv. pose proof (schar_range (load F i)) as Ro.
  assert (Es : schar v = schar (load F i)) by lia.
  apply Hv, uchar_inj.
  rewrite <- (schar_mod256 v), <- (schar_mod256 (load F i)), Es. reflexivity.
Qed.

End Validation.

(** The frame the driver builds carries the checksum of its bytes
    1 .. 4 in its last byte, as the protocol wants it. *)
Lemma query_frame_checksum {platform : Platform} {header : Header} (command : byte) :
  (6 <= DRIVER_LEN)%nat ->
  firstn 5 (query_frame command)
  = [DRIVER_SOM; char_of_Z 3; DEVICE_PC; DEVICE_DELTA; command] /\
  uchar (load (query_frame command) 5) = calculateCheckSum (query_frame command) 6.
Proof.
  intros Hlen. unfold query_frame.
  destruct DRIVER_LEN as [|[|[|[|[|[|n]]]]]]; try lia.
  set (pre := store (store (store (store (store (zeroed (S (S (S (S (S (S n)))))))
                0 DRIVER_SOM) 1 (char_of_Z 3)) 2 DEVICE_PC) 3 DEVICE_DELTA) 4 command).
  assert (Epre : pre = DRIVER_SOM :: char_of_Z 3 :: DEVICE_PC :: DEVICE_DELTA
                         :: command :: x00 :: repeat x00 n) by reflexivity.
  split.
  - rewrite Epre. reflexivity.
  - rewrite load_store_same by (rewrite Epre; cbn [length]; lia).
    rewrite uchar_char_of_Z, u8_small by apply calculateCheckSum_range.
    apply calculateCheckSum_agree. intros i Hi.
    rewrite u32_small in Hi by lia.
    rewrite load_store_other by lia. reflexivity.
Qed.

(** C8. Let [F] carry a correct trailing checksum byte.  Changing one
    byte among those the checksum covers (indices [1 .. len-2], the
    payload bytes among them) to a different value, without touching the
    trailing byte, makes the comparison in [sendCommand] fail: the
    recomputed checksum differs from the trailing byte, and no exchange
    that leaves the mutated frame in the response buffer returns [true]. *)
Theorem mutated_frame_rejected (platform : Platform) (header : Header)
    (T : Type) (transport : Transport T)
    (F : buffer) (len i : Z) (v : byte) :
  2 <= len < 4294967296 ->
  len <= Z.of_nat (length F) ->
  uchar (load F (len - 1)) = calculateCheckSum F len ->
  1 <= i <= len - 2 ->
  v <> load F i ->
  checksum_differs (store F i v) len = true /\
  forall (cmd res : buffer) (cmd_len : Z) (p : T),
    snd (result_of (sendCommand cmd res cmd_len len p)) = store F i v ->
    fst (result_of (sendCommand cmd res cmd_len len p)) = false.
Proof.
  intros Hlen HF Hok Hi Hv.
  assert (Hd : checksum_differs (store F i v) len = true).
  { destruct (checksum_differs (store F i v) len) eqn:E; [reflexivity|].
    apply accepted_checksum_correct in E.
    rewrite u32_small in E by lia.
    rewrite load_store_other in E by lia.
    exfalso. apply (calculateCheckSum_mutated F len i v); congruence. }
  split; [exact Hd|].
  intros cmd res cmd_len p Hres.
  pose proof (sendCommand_shape cmd res cmd_len len p) as Hs.
  destruct (sendCommand cmd res cmd_len len p) as [[[ok res'] p'] tr].
  unfold result_of, trace_of in *. cbn [fst snd] in *. subst res'.
  inversion Hs; subst; try reflexivity. congruence.
Qed.

(** ** The start marker is not examined *)

Lemma overwrite_nil buf : overwrite buf [] = buf.
Proof. destruct buf; reflexivity. Qed.

Lemma overwrite_garble res res' n x data :
  tl res = tl res' ->
  tl (overwrite res (firstn n (garble x data))) = tl (overwrite res' (firstn n data)).
Proof.
  intros Htl.
  destruct n as [|n]; [cbn; rewrite !overwrite_nil; exact Htl|].
  destruct data as [|d dt]; [cbn; rewrite !overwrite_nil; exact Htl|].
  destruct res as [|a t], res' as [|a' t']; cbn in *; subst; reflexivity.
Qed.

Lemma load_tl b i : 1 <= i -> load b i = nth (Z.to_nat (i - 1)) (tl b) x00.
Proof.
  intros Hi. unfold load.
  replace (Z.to_nat i) with (S (Z.to_nat (i - 1))) by lia.
  destruct b as [|a t]; simpl; [destruct (Z.to_nat (i - 1)); reflexivity|reflexivity].
Qed.

Lemma checksum_differs_tl {platform : Platform} b b' len :
  2 <= len < 4294967296 ->
  tl b = tl b' ->
  checksum_differs b len = checksum_differs b' len.
Proof.
  intros Hlen Htl. unfold checksum_differs.
  rewrite (calculateCheckSum_agree b b' len)
    by (intros i Hi; rewrite !load_tl by lia; rewrite Htl; reflexivity).
  rewrite u32_small by lia.
  rewrite (load_tl b), (load_tl b') by lia. rewrite Htl. reflexivity.
Qed.

Section Marker.

Context {platform : Platform} {header : Header}.
Context {T : Type} {transport : Transport T}.

Lemma retry_loop_garbled n cmd cmd_len res_len : forall res res' rc0 (g : Garbled T),
  tl res = tl res' ->
  let rg := retry_loop n cmd res cmd_len res_len rc0 g in
  let rb := retry_loop n cmd res' cmd_len res_len rc0 (inner g) in
  trace_of rg = trace_of rb /\
  inner (port_of rg) = port_of rb /\
  same_exit (result_of rg) (result_of rb).
Proof.
  induction n as [|n IH]; intros res res' rc0 g Htl; cbn zeta.
  - cbn. auto.
  - cbn [retry_loop]. unfold bind, emit, ret, result_of, trace_of, port_of.
    cbn [tty_write tty_read Garbled_Transport].
    destruct (tty_write (inner g) (firstn (Z.to_nat cmd_len) cmd)) as [rcw p1].
    destruct (is_TTY_OK rcw) eqn:Ew; cbn; [|auto].
    destruct (tty_read p1 res_len DRIVER_TIMEOUT) as [[rcr data] p2].
    destruct (is_TTY_OK rcr) eqn:Er; cbn.
    + auto using overwrite_garble.
    + specialize (IH (overwrite res (firstn (Z.to_nat res_len) (garble (marker g) data)))
                     (overwrite res' (firstn (Z.to_nat res_len) data))
                     rcr {| inner := p2; marker := marker g |}
                     (overwrite_garble _ _ _ _ _ Htl)).
      cbn zeta in IH. unfold result_of, trace_of, port_of in IH. cbn [inner] in IH.
      destruct (retry_loop n cmd _ cmd_len res_len rcr {| inner := p2; marker := marker g |})
        as [[exg pg] trg].
      destruct (retry_loop n cmd _ cmd_len res_len rcr p2) as [[exb pb] trb].
      cbn in *. destruct IH as (Ht & Hp & He). subst. auto.
Qed.

End Marker.

(** C10. [sendCommand] does not look at the first byte of the response.
    Put in front of any port a filter that replaces the first byte of
    everything read by an arbitrary value: for a response length of at
    least two, the exchange returns the same result, reports the same
    failures, leaves the port in the same state and leaves the same
    bytes in the response buffer from index 1 on. *)
Theorem start_marker_not_checked (platform : Platform) (header : Header)
    (T : Type) (transport : Transport T)
    (cmd res : buffer) (cmd_len res_len : Z) (g : Garbled T) :
  2 <= res_len < 4294967296 ->
  let clean := sendCommand cmd res cmd_len res_len (inner g) in
  let garbled := sendCommand cmd res cmd_len res_len g in
  fst (result_of garbled) = fst (result_of clean) /\
  failures (trace_of garbled) = failures (trace_of clean) /\
  inner (port_of garbled) = port_of clean /\
  forall i, 1 <= i ->
    load (snd (result_of garbled)) i = load (snd (result_of clean)) i.
Proof.
  intros Hlen. cbn zeta.
  pose proof (retry_loop_garbled 3 cmd cmd_len res_len res res TTY_OK g eq_refl) as Hl.
  cbn zeta in Hl. unfold sendCommand, bind, emit, ret, result_of, trace_of, port_of in *.
  destruct (retry_loop 3 cmd res cmd_len res_len TTY_OK g) as [[exg pg] trg].
  destruct (retry_loop 3 cmd res cmd_len res_len TTY_OK (inner g)) as [[exb pb] trb].
  cbn [fst snd] in Hl. destruct Hl as (Ht & Hp & He). subst trg.
  assert (Hload : forall b b' : buffer, tl b = tl b' ->
                   forall i, 1 <= i -> load b i = load b' i).
  { intros b b' Htl i Hi. rewrite !load_tl by lia. rewrite Htl. reflexivity. }
  destruct exg as [rg|rcg rg], exb as [rb|rcb rb]; cbn in He; try contradiction.
  - cbn. rewrite !app_nil_r.
    repeat split; auto. intros i Hi. apply (Hload rg rb He i Hi).
  - destruct He as [-> Htl].
    destruct (is_TTY_OK rcb); cbn.
    + rewrite (checksum_differs_tl rg rb res_len Hlen Htl).
      destruct (checksum_differs rb res_len); cbn.
      * repeat split; auto. intros i Hi. apply (Hload rg rb Htl i Hi).
      * unfold failures, error_logs. rewrite !flat_map_app. cbn.
        rewrite !app_nil_r.
        repeat split; auto. intros i Hi. apply (Hload rg rb Htl i Hi).
    + repeat split; auto. intros i Hi. apply (Hload rg rb Htl i Hi).
Qed.

(** ** Heater discovery *)

Section Discovery.

Context {platform : Platform} {header : Header}.
Context {T : Type} {transport : Transport T}.

Lemma push_controls self l :
  fold_left (fun self i =>
               let '(ControlSP, ControlS) := new_control self i in
               push_back_control self ControlSP ControlS) l self
  = {| deviceName := deviceName self; isConnected := isConnected self;
       InfoT := InfoT self;
       HeaterControlSP := HeaterControlSP self ++ map (fun i => fst (new_control self i)) l;
       HeaterControlS := HeaterControlS self ++ map (fun i => snd (new_control self i)) l;
       HeaterParamNP := HeaterParamNP self; HeaterParamN := HeaterParamN self |}.
Proof.
  revert self. induction l as [|i l IH]; intros self.
  - destruct self; cbn. rewrite !app_nil_r. reflexivity.
  - cbn [fold_left]. rewrite IH. cbn. rewrite <- !app_assoc. reflexivity.
Qed.

Lemma push_params self l :
  fold_left (fun self i =>
               let '(ControlNP, ControlN) := new_param self i in
               push_back_param self ControlNP ControlN) l self
  = {| deviceName := deviceName self; isConnected := isConnected self;
       InfoT := InfoT self;
       HeaterControlSP := HeaterControlSP self; HeaterControlS := HeaterControlS self;
       HeaterParamNP := HeaterParamNP self ++ map (fun i => fst (new_param self i)) l;
       HeaterParamN := HeaterParamN self ++ map (fun i => snd (new_param self i)) l |}.
Proof.
  revert self. induction l as [|i l IH]; intros self.
  - destruct self; cbn. rewrite !app_nil_r. reflexivity.
  - cbn [fold_left]. rewrite IH. cbn. rewrite <- !app_assoc. reflexivity.
Qed.

Lemma create_heaters_eq self n :
  create_heaters self n
  = {| deviceName := deviceName self; isConnected := isConnected self;
       InfoT := InfoT self;
       HeaterControlSP :=
         HeaterControlSP self ++ map (fun i => fst (new_control self i)) (for_range 0 n);
       HeaterControlS :=
         HeaterControlS self ++ map (fun i => snd (new_control self i)) (for_range 0 n);
       HeaterParamNP :=
         HeaterParamNP self ++ map (fun i => fst (new_param self i)) (for_range 0 n);
       HeaterParamN :=
         HeaterParamN self ++ map (fun i => snd (new_param self i)) (for_range 0 n) |}.
Proof.
  unfold create_heaters. rewrite push_controls, push_params. reflexivity.
Qed.

Lemma for_range_length from bound :
  Z.of_nat (length (for_range from bound)) = Z.max 0 (bound - from).
Proof.
  unfold for_range. rewrite length_map, length_seq. lia.
Qed.

Lemma nHeaters_value res : u8 (char_to_int (load res 4)) = uchar (load res 4).
Proof. unfold u8. apply char_to_int_mod256. Qed.

End Discovery.

(** C5. Let the heater count exchange succeed with byte value [N] at
    offset 4 of the response.  Then [initializeHeaters] returns [true]
    and appends exactly [N] control entries and exactly [N] parameter
    entries, created for the indices 0, 1, .., N-1 in this order (the
    index shows in the property names), each in its default state.  If
    the exchange fails, [initializeHeaters] returns [false] and the
    object is unchanged. *)
Theorem initializeHeaters_spec (platform : Platform) (header : Header)
    (T : Type) (transport : Transport T) (self : DeltaT) (p : T) :
  let x := sendCommand (query_frame COH_NUMHEATERS) (zeroed DRIVER_LEN) 6 6 p in
  let r := initializeHeaters self p in
  let N := uchar (load (snd (result_of x)) 4) in
  (fst (result_of x) = true ->
   fst (result_of r) = true /\
   exists controls params,
     HeaterControlSP (snd (result_of r)) = HeaterControlSP self ++ controls /\
     HeaterControlS (snd (result_of r)) = HeaterControlS self ++ map svp_sp controls /\
     HeaterParamNP (snd (result_of r)) = HeaterParamNP self ++ params /\
     HeaterParamN (snd (result_of r)) = HeaterParamN self ++ map nvp_np params /\
     Z.of_nat (length controls) = N /\
     Z.of_nat (length params) = N /\
     map svp_name controls
     = map (fun i => snprintf MAXINDINAME ("DEW_" ++ to_string i ++ "d")) (for_range 0 N) /\
     map nvp_name params
     = map (fun i => snprintf MAXINDINAME ("PARAM_" ++ to_string i ++ "d")) (for_range 0 N) /\
     Forall control_defaults controls /\
     Forall param_defaults params)
  /\
  (fst (result_of x) = false ->
   fst (result_of r) = false /\ snd (result_of r) = self).
Proof.
  cbn zeta. unfold initializeHeaters, bind, emit, ret, result_of.
  destruct (sendCommand (query_frame COH_NUMHEATERS) (zeroed DRIVER_LEN) 6 6 p)
    as [[[ok res] p'] tr].
  cbn [fst snd]. split; intros ->; cbn [negb fst snd]; [|split; reflexivity].
  split; [reflexivity|].
  rewrite nHeaters_value, create_heaters_eq. cbn [HeaterControlSP HeaterControlS
    HeaterParamNP HeaterParamN].
  pose proof (uchar_range (load res 4)) as HN.
  exists (map (fun i => fst (new_control self i)) (for_range 0 (uchar (load res 4)))),
         (map (fun i => fst (new_param self i)) (for_range 0 (uchar (load res 4)))).
  rewrite !map_map, !length_map, for_range_length.
  repeat split; try reflexivity; try lia.
  - apply Forall_map, Forall_forall. intros i _. split; reflexivity.
  - apply Forall_map, Forall_forall. intros i _. repeat split; reflexivity.
Qed.

(** ** The version handshake *)

Lemma lor_shiftl8 a b : 0 <= b < 256 -> Z.lor (Z.shiftl a 8) b = a * 256 + b.
Proof.
  intros Hb.
  assert (Hland : Z.land (Z.shiftl a 8) b = 0).
  { apply Z.bits_inj'. intros n Hn.
    rewrite Z.land_spec, Z.bits_0.
    destruct (Z.ltb_spec n 8) as [Hlt|Hge].
    - rewrite Z.shiftl_spec_low by lia. reflexivity.
    - destruct (Z.eq_dec b 0) as [->|Hnz].
      + rewrite Z.bits_0. apply andb_false_r.
      + rewrite (Z.bits_above_log2 b n); [apply andb_false_r|lia|].
        apply Z.log2_lt_pow2; [lia|].
        apply Z.lt_le_trans with (2 ^ 8); [change (2 ^ 8) with 256; lia|].
        apply Z.pow_le_mono_r; lia. }
  pose proof (Z.add_lor_land (Z.shiftl a 8) b) as E.
  rewrite Hland, Z.add_0_r in E. rewrite E.
  rewrite Z.shiftl_mul_pow2 by lia. reflexivity.
Qed.

Section Version.

Context {platform : Platform}.

Lemma char_to_int_low c :
  (CHAR_SIGNED = true -> uchar c < 128) -> char_to_int c = uchar c.
Proof.
  intros H. unfold char_to_int, schar. destruct CHAR_SIGNED; [|reflexivity].
  specialize (H eq_refl). apply Z.ltb_lt in H. rewrite H. reflexivity.
Qed.

(** The build number is the big-endian value of the two build bytes
    whenever the low byte is promoted without sign extension. *)
Lemma build_number_big_endian {header : Header} res :
  (CHAR_SIGNED = true -> uchar (load res 8) < 128) ->
  build_number res = 256 * uchar (load res 7) + uchar (load res 8).
Proof.
  intros Hlow. unfold build_number.
  rewrite (char_to_int_low (load res 8) Hlow).
  pose proof (uchar_range (load res 7)) as R7.
  pose proof (uchar_range (load res 8)) as R8.
  rewrite lor_shiftl8 by lia. unfold u16.
  unfold char_to_int, schar.
  destruct CHAR_SIGNED; [destruct (Z.ltb_spec (uchar (load res 7)) 128)|].
  - rewrite Z.mod_small by lia. lia.
  - replace ((uchar (load res 7) - 256) * 256 + uchar (load res 8))
      with (256 * uchar (load res 7) + uchar (load res 8) + (-1) * 65536) by lia.
    rewrite Z.mod_add by lia. apply Z.mod_small. lia.
  - rewrite Z.mod_small by lia. lia.
Qed.

End Version.

(** C6 (amended). [Handshake] writes the first six bytes of the
    get-version frame and asks for a response of ten bytes, never six.
    If the exchange fails it returns [false] and saves nothing.  If it
    succeeds it returns [true] and saves the text "major.minor (build)",
    major and minor being the bytes at offsets 5 and 6 and build the
    big-endian 16-bit value of the bytes at offsets 7 and 8 - stated
    here for the responses whose bytes 5, 6 and 8 are below [0x80] when
    [char] is signed.  Bytes 3, 2, 0x01, 0x2C at offsets 5 .. 8 give
    "3.2 (300)". *)
Theorem Handshake_version (platform : Platform) (header : Header)
    (T : Type) (transport : Transport T) (self : DeltaT) (p : T) :
  let x := sendCommand (query_frame CMD_GET_VERSION) (zeroed DRIVER_LEN) 6 10 p in
  let r := Handshake self p in
  let res := snd (result_of x) in
  Forall (fun frame => frame = firstn 6 (query_frame CMD_GET_VERSION))
         (frames_written (trace_of r)) /\
  Forall (fun n => n = 10) (read_sizes (trace_of r)) /\
  (fst (result_of x) = false ->
   fst (result_of r) = false /\ snd (result_of r) = self) /\
  (fst (result_of x) = true ->
   (CHAR_SIGNED = true ->
    uchar (load res 5) < 128 /\ uchar (load res 6) < 128 /\ uchar (load res 8) < 128) ->
   fst (result_of r) = true /\
   InfoT (snd (result_of r))
   = (to_string (uchar (load res 5)) ++ "." ++ to_string (uchar (load res 6)) ++
      " (" ++ to_string (256 * uchar (load res 7) + uchar (load res 8)) ++ ")")%string) /\
  (fst (result_of x) = true ->
   load res 5 = x03 -> load res 6 = x02 -> load res 7 = x01 -> load res 8 = x2c ->
   InfoT (snd (result_of r)) = "3.2 (300)"%string).
Proof.
  cbn zeta.
  pose proof (sendCommand_shape (query_frame CMD_GET_VERSION) (zeroed DRIVER_LEN) 6 10 p)
    as Hs.
  unfold Handshake, bind, emit, ret, result_of, trace_of in *.
  destruct (sendCommand (query_frame CMD_GET_VERSION) (zeroed DRIVER_LEN) 6 10 p)
    as [[[ok res] p'] tr].
  cbn [fst snd] in *.
  assert (Hio : Forall (fun frame => frame = firstn 6 (query_frame CMD_GET_VERSION))
                       (frames_written tr) /\
                Forall (fun n => n = 10) (read_sizes tr)).
  { inversion Hs as [rcs rcw r' Hf Hl Hrc | rcs rc r' Hf Hl Hrc
                    | rcs r' Hf Hl Hc | rcs r' Hf Hl Hc]; subst;
      enumerate_attempts rcs Hl; cbn; split; repeat constructor. }
  destruct Hio as [Hw Hr].
  assert (Happ : forall e, frames_written (tr ++ [EvLog LInfo e]) = frames_written tr /\
                           read_sizes (tr ++ [EvLog LInfo e]) = read_sizes tr).
  { intros e. unfold frames_written, read_sizes. rewrite !flat_map_app. cbn.
    rewrite !app_nil_r. split; reflexivity. }
  destruct ok; cbn [negb fst snd app].
  - destruct (Happ (MsgDetectedVersion (version_string res))) as [-> ->].
    split; [exact Hw|]. split; [exact Hr|].
    split; [discriminate|]. split.
    + intros _ Hlow. split; [reflexivity|]. cbn [InfoT IUSaveText].
      unfold version_string.
      rewrite build_number_big_endian by (intros E; apply Hlow, E).
      rewrite !char_to_int_low by (intros E; apply Hlow, E). reflexivity.
    + intros _ E5 E6 E7 E8. cbn [InfoT IUSaveText].
      unfold version_string.
      rewrite build_number_big_endian by (intros _; rewrite E8; vm_compute; reflexivity).
      rewrite !char_to_int_low by (intros _; rewrite ?E5, ?E6; vm_compute; reflexivity).
      rewrite E5, E6, E7, E8. reflexivity.
  - rewrite app_nil_r.
    split; [exact Hw|]. split; [exact Hr|].
    split; [split; reflexivity|]. split; discriminate.
Qed.

(** ** Heater entries over the life of the connection *)

Lemma total_app l1 l2 : total (l1 ++ l2) = total l1 + total l2.
Proof.
  unfold total. induction l1 as [|a l1 IH]; simpl; [reflexivity|]. rewrite IH. lia.
Qed.

Lemma detected_heaters_app tr1 tr2 :
  detected_heaters (tr1 ++ tr2) = detected_heaters tr1 ++ detected_heaters tr2.
Proof. apply flat_map_app. Qed.

Lemma grown_by_refl self : grown_by self self 0.
Proof. unfold grown_by. repeat split; lia. Qed.

Lemma grown_by_trans a b c k k' :
  grown_by a b k -> grown_by b c k' -> grown_by a c (k + k').
Proof. unfold grown_by. intros (?&?&?&?) (?&?&?&?). repeat split; lia. Qed.

Lemma no_heaters_detected {A} (f : A -> event) (names : list A) :
  (forall s, detected_heaters [f s] = []) ->
  detected_heaters (map f names) = [].
Proof.
  intros Hf. induction names as [|s names IH]; [reflexivity|].
  change (map f (s :: names)) with ([f s] ++ map f names).
  rewrite detected_heaters_app, Hf, IH. reflexivity.
Qed.

Section Lifecycle.

Context {platform : Platform} {header : Header}.
Context {T : Type} {transport : Transport T}.

Lemma sendCommand_detects_nothing cmd res cmd_len res_len (p : T) :
  detected_heaters (trace_of (sendCommand cmd res cmd_len res_len p)) = [].
Proof.
  pose proof (sendCommand_shape cmd res cmd_len res_len p) as Hs.
  inversion Hs as [rcs rcw r' Hf Hl Hrc | rcs rc r' Hf Hl Hrc
                  | rcs r' Hf Hl Hc | rcs r' Hf Hl Hc];
    enumerate_attempts rcs Hl; reflexivity.
Qed.

Lemma Handshake_keeps_heaters self (p : T) :
  grown_by self (snd (result_of (Handshake self p))) 0 /\
  detected_heaters (trace_of (Handshake self p)) = [].
Proof.
  pose proof (sendCommand_detects_nothing
                (query_frame CMD_GET_VERSION) (zeroed DRIVER_LEN) 6 10 p) as Hd.
  unfold Handshake, bind, emit, ret, result_of, trace_of in *.
  destruct (sendCommand (query_frame CMD_GET_VERSION) (zeroed DRIVER_LEN) 6 10 p)
    as [[[ok res] p'] tr].
  cbn [fst snd] in *. destruct ok; cbn [negb fst snd]; rewrite detected_heaters_app, Hd.
  - split; [|reflexivity]. unfold grown_by. cbn. repeat split; lia.
  - split; [apply grown_by_refl|reflexivity].
Qed.

Lemma initializeHeaters_grows self (p : T) :
  grown_by self (snd (result_of (initializeHeaters self p)))
           (total (detected_heaters (trace_of (initializeHeaters self p)))).
Proof.
  pose proof (sendCommand_detects_nothing
                (query_frame COH_NUMHEATERS) (zeroed DRIVER_LEN) 6 6 p) as Hd.
  unfold initializeHeaters, bind, emit, ret, result_of, trace_of in *.
  destruct (sendCommand (query_frame COH_NUMHEATERS) (zeroed DRIVER_LEN) 6 6 p)
    as [[[ok res] p'] tr].
  cbn [fst snd] in *. destruct ok; cbn [negb fst snd]; rewrite detected_heaters_app, Hd.
  - rewrite nHeaters_value, create_heaters_eq.
    pose proof (uchar_range (load res 4)) as HN.
    pose proof (for_range_length 0 (uchar (load res 4))) as HL.
    unfold grown_by. cbn. rewrite !length_app, !length_map.
    repeat split; lia.
  - apply grown_by_refl.
Qed.

Lemma updateProperties_grows self (p : T) :
  grown_by self (snd (result_of (updateProperties self p)))
           (total (detected_heaters (trace_of (updateProperties self p)))).
Proof.
  pose proof (initializeHeaters_grows self p) as Hg.
  unfold updateProperties.
  destruct (isConnected self);
    unfold bind, emit, emit_all, ret, result_of, trace_of in *.
  - destruct (initializeHeaters self p) as [[[ok self'] p'] tr].
    cbn [fst snd] in *.
    rewrite !detected_heaters_app, !no_heaters_detected by reflexivity.
    cbn. rewrite !app_nil_r. exact Hg.
  - cbn [fst snd].
    rewrite !detected_heaters_app, !no_heaters_detected by reflexivity.
    apply grown_by_refl.
Qed.

Lemma grown_by_setConnected self b self' k :
  grown_by (setConnected self b) self' k -> grown_by self self' k.
Proof. unfold grown_by. cbn. tauto. Qed.

Lemma host_step_grows self c (p : T) :
  grown_by self (result_of (host_step self c p))
           (total (detected_heaters (trace_of (host_step self c p)))).
Proof.
  destruct c as [|connected]; cbn [host_step].
  - pose proof (Handshake_keeps_heaters self p) as [Hg Hd].
    unfold bind, ret, result_of, trace_of in *.
    destruct (Handshake self p) as [[[ok self1] p1] tr1]. cbn [fst snd] in *.
    rewrite app_nil_r, Hd. exact Hg.
  - pose proof (updateProperties_grows (setConnected self connected) p) as Hu.
    apply grown_by_setConnected in Hu.
    unfold bind, ret, result_of, trace_of in *.
    destruct (updateProperties (setConnected self connected) p) as [[[ok2 self2] p2] tr2].
    cbn [fst snd] in *. rewrite app_nil_r. exact Hu.
Qed.

Lemma host_run_grows cs : forall self (p : T),
  grown_by self (result_of (host_run self cs p))
           (total (detected_heaters (trace_of (host_run self cs p)))).
Proof.
  induction cs as [|c cs IH]; intros self p.
  - apply grown_by_refl.
  - cbn [host_run].
    pose proof (host_step_grows self c p) as Hs.
    unfold bind, result_of, trace_of in *.
    destruct (host_step self c p) as [[self1 p1] tr1]. cbn [fst snd] in *.
    specialize (IH self1 p1).
    destruct (host_run self1 cs p1) as [[self2 p2] tr2]. cbn [fst snd] in *.
    rewrite detected_heaters_app, total_app.
    eapply grown_by_trans; eassumption.
Qed.

End Lifecycle.

(** The sizes of the heater collections over any sequence of calls
    from the host: [initializeHeaters] only appends and nothing clears
    the vectors, so each collection grows by the sum of the counts
    reported in the successful discovery passes of the sequence. *)
Theorem heater_entries_accumulate (platform : Platform) (header : Header)
    (T : Type) (transport : Transport T)
    (cs : list host_call) (self : DeltaT) (p : T) :
  let r := host_run self cs p in
  let reported := total (detected_heaters (trace_of r)) in
  Z.of_nat (length (HeaterControlSP (result_of r)))
  = Z.of_nat (length (HeaterControlSP self)) + reported /\
  Z.of_nat (length (HeaterControlS (result_of r)))
  = Z.of_nat (length (HeaterControlS self)) + reported /\
  Z.of_nat (length (HeaterParamNP (result_of r)))
  = Z.of_nat (length (HeaterParamNP self)) + reported /\
  Z.of_nat (length (HeaterParamN (result_of r)))
  = Z.of_nat (length (HeaterParamN self)) + reported.
Proof.
  exact (host_run_grows cs self p).
Qed.

(** ** Reset and reboot *)

(** C9 (amended). [forceReboot] and [forceReset] are stubs: each
    returns [false] whatever the state, writes no frame, reads nothing
    and leaves the object and the port as they were. *)
Theorem force_commands_are_stubs (platform : Platform) (header : Header)
    (T : Type) (transport : Transport T) (self : DeltaT) (p : T) :
  forceReboot self p = ((false, self), p, []) /\
  forceReset self p = ((false, self), p, []).
Proof.
  split; reflexivity.
Qed.

(** * Further properties of the driver *)

(** ** The exchange, case by case *)

Ltac rewrite_failed :=
  repeat match goal with
         | H : is_TTY_OK ?rc = false |- _ => rewrite !H; clear H
         end.

(** Every run of [sendCommand] writes the command between one and
    three times, always the first [cmd_len] bytes of [cmd]; it never
    reads more often than it writes, always asks for [res_len] bytes,
    and sleeps 100 ms once for every read that failed. *)
Theorem sendCommand_io_bounds (platform : Platform) (header : Header)
    (T : Type) (transport : Transport T)
    (cmd res : buffer) (cmd_len res_len : Z) (p : T) :
  let tr := trace_of (sendCommand cmd res cmd_len res_len p) in
  (1 <= length (write_codes tr) <= 3)%nat /\
  (length (read_codes tr) <= length (write_codes tr) <= S (length (read_codes tr)))%nat /\
  Forall (fun frame => frame = firstn (Z.to_nat cmd_len) cmd) (frames_written tr) /\
  Forall (fun n => n = res_len) (read_sizes tr) /\
  sleeps tr = repeat 100000 (length (failed_reads tr)).
Proof.
  cbn zeta.
  pose proof (sendCommand_shape cmd res cmd_len res_len p) as Hs.
  inversion Hs as [rcs rcw r' Hf Hl Hrc | rcs rc r' Hf Hl Hrc
                  | rcs r' Hf Hl Hc | rcs r' Hf Hl Hc];
    enumerate_attempts rcs Hl; forall_inv;
    unfold failed_reads; cbn; rewrite_failed; cbn;
    repeat split; try lia; repeat constructor.
Qed.

(** A write that fails ends the exchange on the spot: it is the last
    write, no read follows it, every read before it had failed, and the
    exchange returns [false] with the write error as its only report. *)
Theorem sendCommand_write_failure (platform : Platform) (header : Header)
    (T : Type) (transport : Transport T)
    (cmd res : buffer) (cmd_len res_len : Z) (p : T) :
  let r := sendCommand cmd res cmd_len res_len p in
  (exists rc, In rc (write_codes (trace_of r)) /\ rc <> TTY_OK) ->
  fst (result_of r) = false /\
  failures (trace_of r) = [IoError] /\
  Forall (fun rc => rc <> TTY_OK) (read_codes (trace_of r)) /\
  exists rcw,
    rcw <> TTY_OK /\
    write_codes (trace_of r) = repeat TTY_OK (length (read_codes (trace_of r))) ++ [rcw] /\
    error_logs (trace_of r) = [MsgSerialWriteError rcw] /\
    last (trace_of r) (EvSleep 0) = EvLog LError (MsgSerialWriteError rcw).
Proof.
  cbn zeta. intros (rc & Hin & Hne).
  pose proof (sendCommand_shape cmd res cmd_len res_len p) as Hs.
  destruct (sendCommand cmd res cmd_len res_len p) as [[[ok res'] p'] tr].
  unfold result_of, trace_of in *. cbn [fst snd] in *.
  inversion Hs as [rcs rcw r' Hf Hl Hrc | rcs rc' r' Hf Hl Hrc
                  | rcs r' Hf Hl Hc | rcs r' Hf Hl Hc]; subst;
    enumerate_attempts rcs Hl; cbn in Hin;
    try (exfalso; intuition congruence).
  all: forall_inv; cbn; repeat split;
    try (repeat constructor; intros E; subst; discriminate);
    exists rcw; repeat split; intros E; subst; discriminate.
Qed.

(** [sendCommand] returns [true] exactly when it reports no error.
    When it does, some read returned [TTY_OK], the last byte of the
    response is the checksum of the response, and the last thing done
    is the debug dump of the response. *)
Theorem sendCommand_success (platform : Platform) (header : Header)
    (T : Type) (transport : Transport T)
    (cmd res : buffer) (cmd_len res_len : Z) (p : T) :
  let r := sendCommand cmd res cmd_len res_len p in
  (fst (result_of r) = true <-> error_logs (trace_of r) = []) /\
  (fst (result_of r) = true ->
   last (read_codes (trace_of r)) TTY_READ_ERROR = TTY_OK /\
   uchar (load (snd (result_of r)) (u32 (res_len - 1)))
   = calculateCheckSum (snd (result_of r)) res_len /\
   last (trace_of r) (EvSleep 0)
   = EvLog LDebug (MsgRes (hexDump (snd (result_of r)) res_len))).
Proof.
  cbn zeta.
  pose proof (sendCommand_shape cmd res cmd_len res_len p) as Hs.
  destruct (sendCommand cmd res cmd_len res_len p) as [[[ok res'] p'] tr].
  unfold result_of, trace_of in *. cbn [fst snd] in *.
  inversion Hs as [rcs rcw r' Hf Hl Hrc | rcs rc' r' Hf Hl Hrc
                  | rcs r' Hf Hl Hc | rcs r' Hf Hl Hc]; subst;
    enumerate_attempts rcs Hl; cbn;
    (split; [split; intros E; try discriminate E; reflexivity|]);
    intros E; try discriminate E;
    (split; [reflexivity|]);
    (split; [apply accepted_checksum_correct; exact Hc|reflexivity]).
Qed.

(** ** The checksum comparison *)

(** What the comparison in [sendCommand] accepts: the last byte must
    be the recomputed checksum and, where plain [char] is signed, that
    checksum must be below [0x80]. *)
Theorem checksum_accepted_iff (platform : Platform) (b : buffer) (len : Z) :
  checksum_differs b len = false <->
  uchar (load b (u32 (len - 1))) = calculateCheckSum b len /\
  (CHAR_SIGNED = true -> calculateCheckSum b len < 128).
Proof.
  split.
  - intros Hacc. pose proof (accepted_checksum_correct b len Hacc) as Hc.
    split; [exact Hc|]. intros Hs.
    rewrite (correct_checksum_accepted_signed b len Hs Hc) in Hacc.
    apply Z.leb_gt in Hacc. exact Hacc.
  - intros [Hc Hlow]. destruct CHAR_SIGNED eqn:Es.
    + rewrite (correct_checksum_accepted_signed b len Es Hc).
      apply Z.leb_gt. apply Hlow. reflexivity.
    + apply (correct_checksum_accepted_unsigned b len Es Hc).
Qed.

Lemma signed_sum_through len b :
  2 <= len ->
  len <= Z.of_nat (length b) ->
  signed_sum (firstn (Z.to_nat (len - 1)) (skipn 1 b))
  = signed_sum (covered b len) + schar (load b (len - 1)).
Proof.
  intros Hlen Hb.
  pose proof (load_for_range b 1 (Z.to_nat (len - 1)) ltac:(lia)) as E1.
  pose proof (load_for_range b 1 (Z.to_nat (len - 2)) ltac:(lia)) as E2.
  replace (Z.of_nat (1 + Z.to_nat (len - 1))) with len in E1 by lia.
  replace (Z.of_nat (1 + Z.to_nat (len - 2))) with (len - 1) in E2 by lia.
  change (Z.of_nat 1) with 1 in E1, E2.
  unfold covered. rewrite <- E1, <- E2.
  rewrite (for_range_split 1 (len - 1) len) by lia.
  replace (for_range (len - 1) len) with [len - 1]
    by (rewrite <- (for_range_one (len - 1)); f_equal; lia).
  rewrite map_app, signed_sum_app. cbn. lia.
Qed.

(** A frame carries the right checksum in its last byte exactly when
    the signed values of its bytes from index 1 to the last add up to a
    multiple of 256. *)
Theorem checksum_zero_sum (platform : Platform) (b : buffer) (len : Z) :
  2 <= len < 4294967296 ->
  len <= Z.of_nat (length b) ->
  uchar (load b (len - 1)) = calculateCheckSum b len <->
  signed_sum (firstn (Z.to_nat (len - 1)) (skipn 1 b)) mod 256 = 0.
Proof.
  intros Hlen Hb.
  rewrite calculateCheckSum_covered by assumption.
  unfold twos_complement_checksum. rewrite land_255.
  rewrite signed_sum_through by lia.
  rewrite <- (schar_mod256 (load b (len - 1))).
  generalize (signed_sum (covered b len)) (schar (load b (len - 1))).
  intros s t. split; intros E.
  - pose proof (Z.div_mod t 256 ltac:(lia)).
    pose proof (Z.div_mod (- s) 256 ltac:(lia)).
    pose proof (Z.mod_pos_bound (s + t) 256 ltac:(lia)).
    pose proof (Z.div_mod (s + t) 256 ltac:(lia)).
    assert (Hk : s + t = 256 * (t / 256 - (- s) / 256)) by lia.
    rewrite Hk, Z.mul_comm. apply Z.mod_mul. lia.
  - pose proof (Z.div_mod (s + t) 256 ltac:(lia)) as Hst.
    rewrite E, Z.add_0_r in Hst.
    replace t with (- s + ((s + t) / 256) * 256) by lia.
    rewrite Z.mod_add by lia. reflexivity.
Qed.

Lemma for_range_empty from bound : bound <= from -> for_range from bound = [].
Proof.
  intros H. unfold for_range. replace (Z.to_nat (bound - from)) with 0%nat by lia.
  reflexivity.
Qed.

Lemma char_to_int_zero_iff {platform : Platform} c : char_to_int c = 0 <-> c = x00.
Proof.
  split.
  - intros E. apply uchar_inj. rewrite <- (char_to_int_mod256 c), E. reflexivity.
  - intros ->. unfold char_to_int. destruct CHAR_SIGNED; reflexivity.
Qed.

(** With a length of 1 or 2 the checksum covers no byte and is 0.  A
    two byte response is then accepted exactly when its second byte is
    zero, and a one byte response exactly when that byte - the start
    marker - is zero. *)
Theorem short_frame_checksum (platform : Platform) (b : buffer) :
  calculateCheckSum b 1 = 0 /\
  calculateCheckSum b 2 = 0 /\
  (checksum_differs b 2 = false <-> load b 1 = x00) /\
  (checksum_differs b 1 = false <-> load b 0 = x00).
Proof.
  assert (E1 : calculateCheckSum b 1 = 0)
    by (rewrite calculateCheckSum_mod; reflexivity).
  assert (E2 : calculateCheckSum b 2 = 0)
    by (rewrite calculateCheckSum_mod; reflexivity).
  split; [exact E1|]. split; [exact E2|].
  unfold checksum_differs. rewrite E1, E2.
  change (u32 (2 - 1)) with 1. change (u32 (1 - 1)) with 0.
  split; (rewrite negb_false_iff, Z.eqb_eq; split;
          [intros E; apply char_to_int_zero_iff; symmetry; exact E
          |intros E; symmetry; apply char_to_int_zero_iff; exact E]).
Qed.

(** The sum of the covered bytes after one byte is replaced. *)
Lemma signed_sum_store b from bound i v :
  0 <= from <= i -> i < bound -> i < Z.of_nat (length b) ->
  signed_sum (map (load (store b i v)) (for_range from bound))
  = signed_sum (map (load b) (for_range from bound)) - schar (load b i) + schar v.
Proof.
  intros Hfrom Hi Hb.
  rewrite (for_range_split from i bound) by lia.
  rewrite (for_range_split i (i + 1) bound) by lia.
  rewrite for_range_one, !map_app, !signed_sum_app.
  cbn [map signed_sum fold_right].
  rewrite load_store_same by lia.
  rewrite (map_ext_in (load (store b i v)) (load b) (for_range from i))
    by (intros j Hj; apply in_for_range in Hj; apply load_store_other; lia).
  rewrite (map_ext_in (load (store b i v)) (load b) (for_range (i + 1) bound))
    by (intros j Hj; apply in_for_range in Hj; apply load_store_other; lia).
  lia.
Qed.

(** Exchanging two covered bytes of a frame goes unnoticed: the
    checksum, and with it the outcome of the comparison in
    [sendCommand], stays the same. *)
Theorem transposition_undetected (platform : Platform) (b : buffer) (len i j : Z) :
  2 <= len < 4294967296 ->
  len <= Z.of_nat (length b) ->
  1 <= i <= len - 2 ->
  1 <= j <= len - 2 ->
  calculateCheckSum (swap_bytes b i j) len = calculateCheckSum b len /\
  checksum_differs (swap_bytes b i j) len = checksum_differs b len.
Proof.
  intros Hlen Hb Hi Hj.
  assert (Hcs : calculateCheckSum (swap_bytes b i j) len = calculateCheckSum b len).
  { rewrite !calculateCheckSum_mod, u32_small by lia. unfold swap_bytes.
    rewrite signed_sum_store by (rewrite ?store_length; lia).
    rewrite signed_sum_store by lia.
    assert (Ej : load (store b i (load b j)) j = load b j).
    { destruct (Z.eq_dec i j) as [->|Hne].
      - apply load_store_same. lia.
      - apply load_store_other; lia. }
    rewrite Ej. do 2 f_equal. lia. }
  split; [exact Hcs|].
  unfold checksum_differs. rewrite Hcs, u32_small by lia.
  unfold swap_bytes. rewrite !load_store_other by lia. reflexivity.
Qed.

Lemma load_zeroed n i : load (zeroed n) i = x00.
Proof.
  unfold load, zeroed. generalize (Z.to_nat i). intros k.
  revert k. induction n as [|n IH]; intros [|k]; simpl; auto.
Qed.

Lemma signed_sum_zero l (b : buffer) :
  (forall i, In i l -> load b i = x00) -> signed_sum (map (load b) l) = 0.
Proof.
  induction l as [|i l IH]; intros H; [reflexivity|].
  cbn [map signed_sum fold_right].
  rewrite (H i (or_introl eq_refl)).
  change (signed_sum (map (load b) l)) with
    (fold_right (fun c acc => schar c + acc) 0 (map (load b) l)) in IH.
  rewrite IH by (intros k Hk; apply H; right; exact Hk). reflexivity.
Qed.

Lemma zero_bytes_pass {platform : Platform} (b : buffer) (len : Z) :
  1 <= len < 4294967296 ->
  (forall i, 1 <= i <= len - 1 -> load b i = x00) ->
  (len = 1 -> load b 0 = x00) ->
  calculateCheckSum b len = 0 /\ checksum_differs b len = false.
Proof.
  intros Hlen Hz H1.
  assert (Hcs : calculateCheckSum b len = 0).
  { rewrite calculateCheckSum_mod, u32_small by lia.
    rewrite signed_sum_zero; [reflexivity|].
    intros i Hi. apply in_for_range in Hi. apply Hz. lia. }
  split; [exact Hcs|].
  unfold checksum_differs. rewrite Hcs, u32_small by lia.
  assert (Hlast : load b (len - 1) = x00).
  { destruct (Z.eq_dec len 1) as [->|Hne]; [apply H1; reflexivity|apply Hz; lia]. }
  rewrite Hlast.
  replace (char_to_int x00) with 0
    by (symmetry; apply char_to_int_zero_iff; reflexivity).
  reflexivity.
Qed.

(** A response whose bytes from index 1 to the last are all zero -
    such as the response buffer as [Handshake] and [initializeHeaters]
    hand it over, before anything is read into it - passes the
    comparison, whatever its first byte. *)
Theorem zero_frame_accepted (platform : Platform) (b : buffer) (len : Z) :
  1 <= len < 4294967296 ->
  (forall i, 1 <= i <= len - 1 -> load b i = x00) ->
  (len = 1 -> load b 0 = x00) ->
  calculateCheckSum b len = 0 /\ checksum_differs b len = false.
Proof.
  exact (zero_bytes_pass b len).
Qed.

(** ** The hexadecimal dump *)

Lemma string_append_assoc (a b c : string) :
  ((a ++ b) ++ c)%string = (a ++ (b ++ c))%string.
Proof. induction a as [|x a IH]; cbn; [reflexivity|]. rewrite IH. reflexivity. Qed.

Lemma string_append_empty (a : string) : (a ++ "")%string = a.
Proof. induction a as [|x a IH]; cbn; [reflexivity|]. rewrite IH. reflexivity. Qed.

(** The contents of [buf] before its last character is cut off. *)
Lemma hexDump_loop data idx : forall acc,
  fold_left (fun buf i => (buf ++ hex_byte (load data i))%string) idx acc
  = (acc ++ fold_right (fun c s => hex_pair c (String " " s)) EmptyString
                       (map (load data) idx))%string.
Proof.
  induction idx as [|i idx IH]; intros acc; cbn [fold_left map fold_right].
  - symmetry. apply string_append_empty.
  - rewrite IH, string_append_assoc. reflexivity.
Qed.

Lemma cut_last_space (l : list byte) :
  l <> [] ->
  substring 0 (3 * length l - 1)
            (fold_right (fun c s => hex_pair c (String " " s)) EmptyString l)
  = spaced_hex l.
Proof.
  induction l as [|c l IH]; intros Hne; [contradiction|].
  destruct l as [|c' t]; [reflexivity|].
  replace (3 * length (c :: c' :: t) - 1)%nat
    with (S (S (S (3 * length (c' :: t) - 1)))) by (cbn [length]; lia).
  cbn [fold_right hex_pair substring] in *.
  rewrite IH by discriminate. reflexivity.
Qed.

Lemma spaced_hex_length (l : list byte) :
  l <> [] -> String.length (spaced_hex l) = (3 * length l - 1)%nat.
Proof.
  induction l as [|c l IH]; intros Hne; [contradiction|].
  destruct l as [|c' t]; [reflexivity|].
  cbn [spaced_hex hex_pair String.length] in *.
  rewrite IH by discriminate. cbn [length]. lia.
Qed.

Lemma firstn_nonempty (data : buffer) (size : Z) :
  0 < size <= Z.of_nat (length data) -> firstn (Z.to_nat size) data <> [].
Proof.
  intros Hsize Hnil. apply (f_equal (@length byte)) in Hnil.
  rewrite length_firstn in Hnil. cbn in Hnil. lia.
Qed.

Lemma hexDump_eq_spaced (data : buffer) (size : Z) :
  0 <= size <= Z.of_nat (length data) ->
  hexDump data size = spaced_hex (firstn (Z.to_nat size) data).
Proof.
  intros Hsize. unfold hexDump. rewrite hexDump_loop. cbn [append].
  pose proof (load_for_range data 0 (Z.to_nat size) ltac:(lia)) as El.
  replace (Z.of_nat (0 + Z.to_nat size)) with size in El by lia.
  cbn [Z.of_nat skipn] in El. rewrite El.
  destruct (Z.ltb_spec 0 size) as [Hpos|Hzero].
  - replace (Z.to_nat (3 * size - 1))
      with (3 * length (firstn (Z.to_nat size) data) - 1)%nat
      by (rewrite length_firstn; lia).
    apply cut_last_space, firstn_nonempty. lia.
  - replace (Z.to_nat size) with 0%nat by lia. reflexivity.
Qed.

(** [hexDump] leaves in [buf] the first [size] bytes of [data] as
    pairs of upper-case hexadecimal digits separated by single spaces,
    with no space at the end: [3 * size - 1] characters, and the empty
    string when [size] is 0. *)
Theorem hexDump_spaced (data : buffer) (size : Z) :
  0 <= size <= Z.of_nat (length data) ->
  hexDump data size = spaced_hex (firstn (Z.to_nat size) data) /\
  (size = 0 -> hexDump data size = EmptyString) /\
  (0 < size -> Z.of_nat (String.length (hexDump data size)) = 3 * size - 1).
Proof.
  intros Hsize.
  pose proof (hexDump_eq_spaced data size Hsize) as E.
  split; [exact E|]. split.
  - intros ->. reflexivity.
  - intros Hpos. rewrite E, spaced_hex_length by (apply firstn_nonempty; lia).
    rewrite length_firstn. lia.
Qed.

Lemma hex_digit_inj a b :
  0 <= a < 16 -> 0 <= b < 16 -> hex_digit a = hex_digit b -> a = b.
Proof.
  intros Ha Hb.
  assert (Ea : a = 0 \/ a = 1 \/ a = 2 \/ a = 3 \/ a = 4 \/ a = 5 \/ a = 6 \/ a = 7 \/
               a = 8 \/ a = 9 \/ a = 10 \/ a = 11 \/ a = 12 \/ a = 13 \/ a = 14 \/
               a = 15) by lia.
  assert (Eb : b = 0 \/ b = 1 \/ b = 2 \/ b = 3 \/ b = 4 \/ b = 5 \/ b = 6 \/ b = 7 \/
               b = 8 \/ b = 9 \/ b = 10 \/ b = 11 \/ b = 12 \/ b = 13 \/ b = 14 \/
               b = 15) by lia.
  clear Ha Hb.
  repeat (destruct Ea as [Ea|Ea]); subst a;
    repeat (destruct Eb as [Eb|Eb]); subst b;
    intros E; try reflexivity; discriminate E.
Qed.

Lemma hex_pair_inj c c' r r' : hex_pair c r = hex_pair c' r' -> c = c' /\ r = r'.
Proof.
  unfold hex_pair. intros E. injection E as Ehi Elo Er.
  pose proof (uchar_range c) as Rc. pose proof (uchar_range c') as Rc'.
  apply hex_digit_inj in Ehi;
    [|split; [apply Z.div_pos; lia|apply Z.div_lt_upper_bound; lia]
     |split; [apply Z.div_pos; lia|apply Z.div_lt_upper_bound; lia]].
  apply hex_digit_inj in Elo; [|apply Z.mod_pos_bound; lia|apply Z.mod_pos_bound; lia].
  split; [|exact Er]. apply uchar_inj.
  rewrite (Z.div_mod (uchar c) 16), (Z.div_mod (uchar c') 16) by lia.
  rewrite Ehi, Elo. reflexivity.
Qed.

Lemma spaced_hex_inj l : forall l', spaced_hex l = spaced_hex l' -> l = l'.
Proof.
  induction l as [|c l IH]; intros [|c' l'] E.
  - reflexivity.
  - destruct l'; discriminate E.
  - destruct l; discriminate E.
  - destruct l as [|c2 t], l' as [|c2' t'].
    + apply hex_pair_inj in E. destruct E as [-> _]. reflexivity.
    + apply hex_pair_inj in E. destruct E as [_ E]. discriminate E.
    + apply hex_pair_inj in E. destruct E as [_ E]. discriminate E.
    + change (hex_pair c (String " " (spaced_hex (c2 :: t)))
              = hex_pair c' (String " " (spaced_hex (c2' :: t')))) in E.
      apply hex_pair_inj in E. destruct E as [-> E].
      injection E as E. f_equal. apply IH. exact E.
Qed.

(** The dump loses nothing: two buffers with the same dump of their
    first [size] bytes agree on those bytes. *)
Theorem hexDump_injective (data data' : buffer) (size : Z) :
  0 <= size <= Z.of_nat (length data) ->
  size <= Z.of_nat (length data') ->
  hexDump data size = hexDump data' size ->
  firstn (Z.to_nat size) data = firstn (Z.to_nat size) data'.
Proof.
  intros Hd Hd' E.
  rewrite !hexDump_eq_spaced in E by lia.
  apply spaced_hex_inj. exact E.
Qed.

(** ** The build number *)

Lemma lor_shiftl8_negative a b : -256 <= b < 0 -> Z.lor (Z.shiftl a 8) b = b.
Proof.
  intros Hb. apply Z.bits_inj'. intros n Hn. rewrite Z.lor_spec.
  destruct (Z.ltb_spec n 8) as [Hlt|Hge].
  - rewrite Z.shiftl_spec_low by lia. reflexivity.
  - rewrite (Z.bits_above_log2_neg b n); [apply orb_true_r|lia|].
    destruct (Z.eq_dec (Z.pred (- b)) 0) as [E|Hnz].
    + rewrite E. cbn. lia.
    + apply Z.log2_lt_pow2; [lia|].
      apply Z.lt_le_trans with (2 ^ 8); [change (2 ^ 8) with 256; lia|].
      apply Z.pow_le_mono_r; lia.
Qed.

(** The build number [Handshake] computes from the bytes at offsets 7
    and 8: their big-endian value, except that where plain [char] is
    signed a low byte from [0x80] on turns the high byte into [0xFF]. *)
Theorem build_number_value (platform : Platform) (res : buffer) :
  build_number res
  = if CHAR_SIGNED && (128 <=? uchar (load res 8))
    then 65280 + uchar (load res 8)
    else 256 * uchar (load res 7) + uchar (load res 8).
Proof.
  pose proof (uchar_range (load res 8)) as R8.
  destruct CHAR_SIGNED eqn:Es; cbn [andb].
  - destruct (Z.leb_spec 128 (uchar (load res 8))) as [Hhigh|Hlow].
    + unfold build_number, char_to_int at 2, schar. rewrite Es.
      destruct (Z.ltb_spec (uchar (load res 8)) 128); [lia|].
      rewrite lor_shiftl8_negative by lia. unfold u16.
      replace (uchar (load res 8) - 256)
        with (65280 + uchar (load res 8) + (-1) * 65536) by lia.
      rewrite Z.mod_add by lia. apply Z.mod_small. lia.
    + apply (@build_number_big_endian platform example_header). intros _. exact Hlow.
  - apply (@build_number_big_endian platform example_header). intros E. congruence.
Qed.

(** ** Property updates *)

Lemma host_updates_app tr1 tr2 :
  host_updates (tr1 ++ tr2) = host_updates tr1 ++ host_updates tr2.
Proof. apply filter_app. Qed.

Lemma host_updates_all {A} (f : A -> event) (l : list A) :
  (forall a, host_updates [f a] = [f a]) ->
  host_updates (map f l) = map f l.
Proof.
  intros Hf. induction l as [|a l IH]; [reflexivity|].
  change (map f (a :: l)) with ([f a] ++ map f l).
  rewrite host_updates_app, Hf, IH. reflexivity.
Qed.

Lemma flat_map_map_nil {A B} (g : event -> list B) (f : A -> event) (l : list A) :
  (forall a, g (f a) = []) -> flat_map g (map f l) = [].
Proof.
  intros Hg. induction l as [|a l IH]; [reflexivity|].
  cbn [map flat_map]. rewrite Hg, IH. reflexivity.
Qed.

Section Updates.

Context {platform : Platform} {header : Header}.
Context {T : Type} {transport : Transport T}.

Lemma sendCommand_updates_nothing cmd res cmd_len res_len (p : T) :
  host_updates (trace_of (sendCommand cmd res cmd_len res_len p)) = [].
Proof.
  pose proof (sendCommand_shape cmd res cmd_len res_len p) as Hs.
  inversion Hs as [rcs rcw r' Hf Hl Hrc | rcs rc r' Hf Hl Hrc
                  | rcs r' Hf Hl Hc | rcs r' Hf Hl Hc];
    enumerate_attempts rcs Hl; reflexivity.
Qed.

Lemma initializeHeaters_updates_nothing self (p : T) :
  host_updates (trace_of (initializeHeaters self p)) = [].
Proof.
  pose proof (sendCommand_updates_nothing
                (query_frame COH_NUMHEATERS) (zeroed DRIVER_LEN) 6 6 p) as Hu.
  unfold initializeHeaters, bind, emit, ret, result_of, trace_of in *.
  destruct (sendCommand (query_frame COH_NUMHEATERS) (zeroed DRIVER_LEN) 6 6 p)
    as [[[ok res] p'] tr].
  cbn [fst snd] in *. destruct ok; cbn [negb fst snd];
    rewrite host_updates_app, Hu; reflexivity.
Qed.

Lemma initializeHeaters_failure self (p : T) :
  fst (result_of (initializeHeaters self p)) = false ->
  snd (result_of (initializeHeaters self p)) = self.
Proof.
  unfold initializeHeaters, bind, emit, ret, result_of.
  destruct (sendCommand (query_frame COH_NUMHEATERS) (zeroed DRIVER_LEN) 6 6 p)
    as [[[ok res] p'] tr].
  destruct ok; cbn [negb fst snd]; [discriminate|reflexivity].
Qed.

End Updates.

(** [updateProperties] returns [true] in every case, also when heater
    discovery fails.  Disconnected, it leaves the object and the port
    alone, does no serial I/O, and deletes the version property, then
    one property per control entry, then one per parameter entry.
    Connected, it runs discovery once and then defines the version
    property and one property for every entry the object holds
    afterwards; if discovery failed these are the entries from before
    and the object is unchanged. *)
Theorem updateProperties_outcome (platform : Platform) (header : Header)
    (T : Type) (transport : Transport T) (self : DeltaT) (p : T) :
  let r := updateProperties self p in
  let self' := snd (result_of r) in
  fst (result_of r) = true /\
  (isConnected self = false ->
   self' = self /\ port_of r = p /\
   write_codes (trace_of r) = [] /\ read_codes (trace_of r) = [] /\
   host_updates (trace_of r)
   = EvDeleteProperty InfoTP_name
       :: map (fun sp => EvDeleteProperty (svp_name sp)) (HeaterControlSP self)
       ++ map (fun np => EvDeleteProperty (nvp_name np)) (HeaterParamNP self)) /\
  (isConnected self = true ->
   let d := initializeHeaters self p in
   self' = snd (result_of d) /\ port_of r = port_of d /\
   write_codes (trace_of r) = write_codes (trace_of d) /\
   read_codes (trace_of r) = read_codes (trace_of d) /\
   host_updates (trace_of r)
   = EvDefineText InfoTP_name
       :: map (fun sp => EvDefineSwitch (svp_name sp)) (HeaterControlSP self')
       ++ map (fun np => EvDefineNumber (nvp_name np)) (HeaterParamNP self') /\
   (fst (result_of d) = false -> self' = self)).
Proof.
  cbn zeta. unfold updateProperties.
  destruct (isConnected self) eqn:Ec.
  - pose proof (initializeHeaters_updates_nothing self p) as Hu.
    pose proof (initializeHeaters_failure self p) as Hfail.
    unfold bind, emit, emit_all, ret, result_of, trace_of, port_of in *.
    destruct (initializeHeaters self p) as [[[ok self1] p1] tr1].
    cbn [fst snd] in *.
    split; [reflexivity|]. split; [discriminate|]. intros _.
    split; [reflexivity|]. split; [reflexivity|].
    unfold write_codes, read_codes.
    rewrite !flat_map_app, !host_updates_app, Hu.
    rewrite !flat_map_map_nil by reflexivity.
    rewrite !host_updates_all by reflexivity.
    cbn. rewrite !app_nil_r. auto.
  - unfold bind, emit, emit_all, ret, result_of, trace_of, port_of.
    cbn [fst snd].
    split; [reflexivity|]. split; [|discriminate]. intros _.
    split; [reflexivity|]. split; [reflexivity|].
    unfold write_codes, read_codes.
    rewrite !flat_map_app, !host_updates_app.
    rewrite !flat_map_map_nil by reflexivity.
    rewrite !host_updates_all by reflexivity.
    cbn. rewrite !app_nil_r. auto.
Qed.

(** ** What the handshake and discovery touch *)

Section Footprint.

Context {platform : Platform} {header : Header}.
Context {T : Type} {transport : Transport T}.

Lemma sendCommand_footprint cmd res cmd_len res_len (p : T) :
  let tr := trace_of (sendCommand cmd res cmd_len res_len p) in
  Forall (fun frame => frame = firstn (Z.to_nat cmd_len) cmd) (frames_written tr) /\
  Forall (fun n => n = res_len) (read_sizes tr) /\
  (length (write_codes tr) <= 3)%nat.
Proof.
  cbn zeta.
  pose proof (sendCommand_shape cmd res cmd_len res_len p) as Hs.
  inversion Hs as [rcs rcw r' Hf Hl Hrc | rcs rc r' Hf Hl Hrc
                  | rcs r' Hf Hl Hc | rcs r' Hf Hl Hc];
    enumerate_attempts rcs Hl; cbn; repeat split; try lia; repeat constructor.
Qed.

Lemma observers_snoc_log tr lvl msg :
  frames_written (tr ++ [EvLog lvl msg]) = frames_written tr /\
  read_sizes (tr ++ [EvLog lvl msg]) = read_sizes tr /\
  write_codes (tr ++ [EvLog lvl msg]) = write_codes tr /\
  host_updates (tr ++ [EvLog lvl msg]) = host_updates tr.
Proof.
  unfold frames_written, read_sizes, write_codes.
  rewrite !flat_map_app, host_updates_app. cbn. rewrite !app_nil_r.
  repeat split.
Qed.

End Footprint.

(** [Handshake] leaves the device name, the connection flag and the
    four heater collections as they are, defines or deletes no property
    and writes the command at most three times.  The version text
    changes only when it succeeds: on failure it is the text from
    before, on success the last thing logged is the text just saved. *)
Theorem Handshake_leaves_heaters_alone (platform : Platform) (header : Header)
    (T : Type) (transport : Transport T) (self : DeltaT) (p : T) :
  let r := Handshake self p in
  let self' := snd (result_of r) in
  deviceName self' = deviceName self /\
  isConnected self' = isConnected self /\
  HeaterControlSP self' = HeaterControlSP self /\
  HeaterControlS self' = HeaterControlS self /\
  HeaterParamNP self' = HeaterParamNP self /\
  HeaterParamN self' = HeaterParamN self /\
  host_updates (trace_of r) = [] /\
  (length (write_codes (trace_of r)) <= 3)%nat /\
  (fst (result_of r) = false -> InfoT self' = InfoT self) /\
  (fst (result_of r) = true ->
   last (trace_of r) (EvSleep 0) = EvLog LInfo (MsgDetectedVersion (InfoT self'))).
Proof.
  cbn zeta.
  pose proof (sendCommand_footprint
                (query_frame CMD_GET_VERSION) (zeroed DRIVER_LEN) 6 10 p) as (_ & _ & Hw).
  pose proof (sendCommand_updates_nothing
                (query_frame CMD_GET_VERSION) (zeroed DRIVER_LEN) 6 10 p) as Hu.
  unfold Handshake, bind, emit, ret, result_of, trace_of in *.
  destruct (sendCommand (query_frame CMD_GET_VERSION) (zeroed DRIVER_LEN) 6 10 p)
    as [[[ok res] p'] tr].
  cbn [fst snd] in *. destruct ok; cbn [negb fst snd app].
  - destruct (observers_snoc_log tr LInfo (MsgDetectedVersion (version_string res)))
      as (_ & _ & -> & ->).
    repeat split; try assumption; try discriminate.
    intros _. rewrite last_last. reflexivity.
  - rewrite app_nil_r. repeat split; try assumption. discriminate.
Qed.

(** [initializeHeaters] writes nothing but the first six bytes of the
    heater count frame, at most three times, and asks for six bytes at
    every read.  It leaves device name, connection flag and version
    text alone and defines or deletes no property.  When it succeeds it
    logs one count [n], between 0 and 255, and every heater collection
    has grown by [n]; when it fails it logs no count. *)
Theorem initializeHeaters_footprint (platform : Platform) (header : Header)
    (T : Type) (transport : Transport T) (self : DeltaT) (p : T) :
  let r := initializeHeaters self p in
  let self' := snd (result_of r) in
  Forall (fun frame => frame = firstn 6 (query_frame COH_NUMHEATERS))
         (frames_written (trace_of r)) /\
  Forall (fun n => n = 6) (read_sizes (trace_of r)) /\
  (length (write_codes (trace_of r)) <= 3)%nat /\
  deviceName self' = deviceName self /\
  isConnected self' = isConnected self /\
  InfoT self' = InfoT self /\
  host_updates (trace_of r) = [] /\
  (fst (result_of r) = true ->
   exists n, 0 <= n <= 255 /\
             detected_heaters (trace_of r) = [n] /\
             grown_by self self' n) /\
  (fst (result_of r) = false -> detected_heaters (trace_of r) = []).
Proof.
  cbn zeta.
  pose proof (sendCommand_footprint
                (query_frame COH_NUMHEATERS) (zeroed DRIVER_LEN) 6 6 p) as (Hf & Hr & Hw).
  pose proof (sendCommand_updates_nothing
                (query_frame COH_NUMHEATERS) (zeroed DRIVER_LEN) 6 6 p) as Hu.
  pose proof (sendCommand_detects_nothing
                (query_frame COH_NUMHEATERS) (zeroed DRIVER_LEN) 6 6 p) as Hd.
  unfold initializeHeaters, bind, emit, ret, result_of, trace_of in *.
  destruct (sendCommand (query_frame COH_NUMHEATERS) (zeroed DRIVER_LEN) 6 6 p)
    as [[[ok res] p'] tr].
  cbn [fst snd] in *. destruct ok; cbn [negb fst snd app].
  - destruct (observers_snoc_log tr LInfo (MsgDetectedHeaters (u8 (char_to_int (load res 4)))))
      as (-> & -> & -> & ->).
    rewrite detected_heaters_app, Hd, nHeaters_value, create_heaters_eq.
    pose proof (uchar_range (load res 4)) as HN.
    pose proof (for_range_length 0 (uchar (load res 4))) as HL.
    repeat split; try assumption; try discriminate.
    intros _. exists (uchar (load res 4)).
    split; [lia|]. split; [reflexivity|].
    unfold grown_by. cbn. rewrite !length_app, !length_map. repeat split; lia.
  - rewrite app_nil_r. repeat split; try assumption; try discriminate.
    intros _. exact Hd.
Qed.

(** ** An empty answer *)

Lemma overwrite_zeros n (data : list byte) :
  Forall (fun c => c = x00) data -> overwrite (zeroed n) data = zeroed n.
Proof.
  revert data. unfold zeroed. induction n as [|n IH]; intros data Hz; [reflexivity|].
  destruct data as [|d data]; [reflexivity|].
  inversion Hz; subst. cbn. rewrite IH by assumption. reflexivity.
Qed.

Lemma version_string_zeros {platform : Platform} n :
  version_string (zeroed n) = "0.0 (0)"%string.
Proof.
  unfold version_string, build_number. rewrite !load_zeroed.
  unfold char_to_int. destruct CHAR_SIGNED; reflexivity.
Qed.

(** A read that returns [TTY_OK] but delivers nothing, or only zero
    bytes, is taken for a good answer to the version query: the zeroed
    response buffer passes the checksum comparison and [Handshake]
    returns [true] with the version text "0.0 (0)". *)
Theorem Handshake_accepts_empty_answer (platform : Platform) (header : Header)
    (T : Type) (transport : Transport T) (self : DeltaT)
    (p p1 p2 : T) (data : list byte) :
  tty_write p (firstn 6 (query_frame CMD_GET_VERSION)) = (TTY_OK, p1) ->
  tty_read p1 10 DRIVER_TIMEOUT = (TTY_OK, data, p2) ->
  Forall (fun c => c = x00) data ->
  result_of (Handshake self p) = (true, IUSaveText self "0.0 (0)") /\
  port_of (Handshake self p) = p2 /\
  error_logs (trace_of (Handshake self p)) = [].
Proof.
  intros Hw Hr Hz.
  assert (Hbuf : overwrite (zeroed DRIVER_LEN) (firstn (Z.to_nat 10) data)
                 = zeroed DRIVER_LEN).
  { apply overwrite_zeros.
    rewrite <- (firstn_skipn (Z.to_nat 10) data) in Hz.
    apply Forall_app in Hz. apply Hz. }
  assert (Hacc : checksum_differs (zeroed DRIVER_LEN) 10 = false).
  { apply zero_bytes_pass; [lia| |lia]. intros i _. apply load_zeroed. }
  unfold Handshake, sendCommand. cbn [retry_loop].
  unfold bind, emit, ret, result_of, port_of, trace_of.
  change (Z.to_nat 6) with 6%nat.
  rewrite Hw. cbn [is_TTY_OK negb].
  rewrite Hr. cbn [is_TTY_OK negb]. rewrite Hbuf, Hacc.
  cbn [negb fst snd]. rewrite version_string_zeros.
  repeat split.
Qed.

(** * Worked runs *)

(** ** On a build with signed [char] *)

Section SignedCharBuild.

#[local] Existing Instance signed_char_platform.
#[local] Existing Instance example_header.

Lemma calculateCheckSum_spec_witness :
  2 <= 6 < 4294967296 /\
  6 <= Z.of_nat (length heater_count_reply) /\
  calculateCheckSum heater_count_reply 6
  = Z.land (- signed_sum (covered heater_count_reply 6)) 255 /\
  forall x y : byte,
    calculateCheckSum (store (store heater_count_reply 0 x) (6 - 1) y) 6
    = calculateCheckSum heater_count_reply 6.
Proof.
  assert (H1 : 2 <= 6 < 4294967296) by lia.
  assert (H2 : 6 <= Z.of_nat (length heater_count_reply)) by (simpl; lia).
  split; [exact H1|]. split; [exact H2|].
  exact (calculateCheckSum_spec signed_char_platform heater_count_reply 6 H1 H2).
Defined.

Lemma sendCommand_retry_bound_witness :
  (let r := sendCommand (query_frame COH_NUMHEATERS) (zeroed DRIVER_LEN) 6 6 silent_port in
   fst (result_of r) = false /\
   length (write_codes (trace_of r)) = 3%nat /\
   length (read_codes (trace_of r)) = 3%nat /\
   sleeps (trace_of r) = [100000; 100000; 100000] /\
   failures (trace_of r) = [IoError])
  /\
  (let r := sendCommand (query_frame COH_NUMHEATERS) (zeroed DRIVER_LEN) 6 6
              ([(TTY_TIME_OUT, []); (TTY_OK, heater_count_reply_low)] : ReplayPort) in
   read_codes (trace_of r) = [TTY_TIME_OUT; TTY_OK] /\
   ([] : list TTY_ERROR) = [] /\
   TTY_TIME_OUT <> TTY_OK /\
   write_codes (trace_of r) = [TTY_OK; TTY_OK] /\
   sleeps (trace_of r) = [100000] /\
   ~ In IoError (failures (trace_of r)) /\
   fst (result_of r) = negb (checksum_differs (snd (result_of r)) 6)).
Proof.
  split.
  - apply (proj1 (sendCommand_retry_bound signed_char_platform example_header
                    ReplayPort _ (query_frame COH_NUMHEATERS) (zeroed DRIVER_LEN)
                    6 6 silent_port)).
    + vm_compute. repeat (apply Forall_cons; [reflexivity|]). apply Forall_nil.
    + vm_compute. repeat (apply Forall_cons; [discriminate|]). apply Forall_nil.
  - split; [reflexivity|].
    apply (proj2 (sendCommand_retry_bound signed_char_platform example_header
                    ReplayPort _ (query_frame COH_NUMHEATERS) (zeroed DRIVER_LEN)
                    6 6 [(TTY_TIME_OUT, []); (TTY_OK, heater_count_reply_low)])
             TTY_TIME_OUT []).
    reflexivity.
Defined.

(** C3 as stated fails: on a port that never answers, [sendCommand]
    writes three times and sleeps three times, 300 ms in all; the third
    sleep follows the last read. *)
Lemma sendCommand_sleeps_after_last_read :
  let r := sendCommand (query_frame COH_NUMHEATERS) (zeroed DRIVER_LEN) 6 6 silent_port in
  write_codes (trace_of r) = [TTY_OK; TTY_OK; TTY_OK] /\
  read_codes (trace_of r) = [TTY_TIME_OUT; TTY_TIME_OUT; TTY_TIME_OUT] /\
  failures (trace_of r) = [IoError] /\
  total (sleeps (trace_of r)) = 3 * 100000 /\
  last (trace_of r) (EvSleep 0) = EvLog LError (MsgSerialReadError TTY_TIME_OUT) /\
  ~ (length (write_codes (trace_of r)) = 3%nat /\
     total (sleeps (trace_of r)) = 2 * 100000).
Proof.
  vm_compute. repeat split; try reflexivity.
  intros [_ E]. discriminate E.
Qed.

Lemma sendCommand_checksum_mismatch_witness :
  let r := sendCommand (query_frame COH_NUMHEATERS) (zeroed DRIVER_LEN) 6 6
             ([(TTY_TIME_OUT, []); (TTY_OK, [x3b; x03; x32; x60; x02; x00])] : ReplayPort) in
  fst (result_of r) = false /\
  failures (trace_of r) = [ProtocolError] /\
  ProtocolError <> IoError /\
  error_logs (trace_of r) = [MsgInvalidChecksum] /\
  exists pre,
    trace_of r = pre ++ [EvRead 6 DRIVER_TIMEOUT TTY_OK;
                         EvLog LError MsgInvalidChecksum] /\
    ~ In TTY_OK (read_codes pre) /\
    (length (write_codes pre) <= 3)%nat.
Proof.
  apply (sendCommand_checksum_mismatch signed_char_platform example_header
           ReplayPort _ (query_frame COH_NUMHEATERS) (zeroed DRIVER_LEN) 6 6
           [(TTY_TIME_OUT, []); (TTY_OK, [x3b; x03; x32; x60; x02; x00])]).
  - vm_compute. right. left. reflexivity.
  - vm_compute. reflexivity.
Defined.

(** C2 fails where plain [char] is signed.  The six byte reply
    [3B 03 32 20 04 A7] carries the correct checksum [0xA7] in its last
    byte; delivered by the first read, it is rejected with the checksum
    error: the trailing byte is promoted to [-89], the recomputed
    checksum to [167].  The frame the driver itself builds for the
    version query, [3B 03 20 32 FE AD] with the constants of the
    example, is correct and rejected in the same way. *)
Theorem correct_checksum_rejected :
  let r := sendCommand (query_frame COH_NUMHEATERS) (zeroed DRIVER_LEN) 6 6
             ([(TTY_OK, heater_count_reply)] : ReplayPort) in
  let own := firstn 6 (query_frame CMD_GET_VERSION) in
  uchar (load heater_count_reply 5) = calculateCheckSum heater_count_reply 6 /\
  calculateCheckSum heater_count_reply 6 = 167 /\
  char_to_int (load heater_count_reply 5) = -89 /\
  read_codes (trace_of r) = [TTY_OK] /\
  firstn 6 (snd (result_of r)) = heater_count_reply /\
  fst (result_of r) = false /\
  failures (trace_of r) = [ProtocolError] /\
  uchar (load own 5) = calculateCheckSum own 6 /\
  checksum_differs own 6 = true.
Proof.
  vm_compute. repeat split; reflexivity.
Qed.

Lemma sendCommand_checksum_mismatch_on_correct_frame :
  let r := sendCommand (query_frame COH_NUMHEATERS) (zeroed DRIVER_LEN) 6 6
             ([(TTY_OK, heater_count_reply)] : ReplayPort) in
  error_logs (trace_of r) = [MsgInvalidChecksum].
Proof. vm_compute. reflexivity. Qed.

Lemma initializeHeaters_spec_witness :
  (let self := DeltaT_init "Delta" in
   let p : ReplayPort := [(TTY_OK, heater_count_reply_low)] in
   let x := sendCommand (query_frame COH_NUMHEATERS) (zeroed DRIVER_LEN) 6 6 p in
   let r := initializeHeaters self p in
   let N := uchar (load (snd (result_of x)) 4) in
   fst (result_of x) = true /\ N = 2 /\
   fst (result_of r) = true /\
   exists controls params,
     HeaterControlSP (snd (result_of r)) = HeaterControlSP self ++ controls /\
     HeaterControlS (snd (result_of r)) = HeaterControlS self ++ map svp_sp controls /\
     HeaterParamNP (snd (result_of r)) = HeaterParamNP self ++ params /\
     HeaterParamN (snd (result_of r)) = HeaterParamN self ++ map nvp_np params /\
     Z.of_nat (length controls) = N /\
     Z.of_nat (length params) = N /\
     map svp_name controls
     = map (fun i => snprintf MAXINDINAME ("DEW_" ++ to_string i ++ "d")) (for_range 0 N) /\
     map nvp_name params
     = map (fun i => snprintf MAXINDINAME ("PARAM_" ++ to_string i ++ "d")) (for_range 0 N) /\
     Forall control_defaults controls /\
     Forall param_defaults params)
  /\
  (let self := DeltaT_init "Delta" in
   let x := sendCommand (query_frame COH_NUMHEATERS) (zeroed DRIVER_LEN) 6 6 silent_port in
   let r := initializeHeaters self silent_port in
   fst (result_of x) = false /\
   fst (result_of r) = false /\ snd (result_of r) = self).
Proof.
  cbn zeta. split.
  - split; [vm_compute; reflexivity|]. split; [vm_compute; reflexivity|].
    apply (proj1 (initializeHeaters_spec signed_char_platform example_header
                    ReplayPort _ (DeltaT_init "Delta")
                    [(TTY_OK, heater_count_reply_low)])).
    vm_compute. reflexivity.
  - split; [vm_compute; reflexivity|].
    apply (proj2 (initializeHeaters_spec signed_char_platform example_header
                    ReplayPort _ (DeltaT_init "Delta") silent_port)).
    vm_compute. reflexivity.
Defined.

(** The names created for two heaters. *)
Example two_heaters_names :
  let r := initializeHeaters (DeltaT_init "Delta")
             ([(TTY_OK, heater_count_reply_low)] : ReplayPort) in
  map svp_name (HeaterControlSP (snd (result_of r))) = ["DEW_0d"; "DEW_1d"]%string /\
  map nvp_name (HeaterParamNP (snd (result_of r))) = ["PARAM_0d"; "PARAM_1d"]%string.
Proof. vm_compute. split; reflexivity. Qed.

Lemma Handshake_version_witness :
  let self := DeltaT_init "Delta" in
  let p : ReplayPort := [(TTY_OK, version_reply)] in
  let x := sendCommand (query_frame CMD_GET_VERSION) (zeroed DRIVER_LEN) 6 10 p in
  let r := Handshake self p in
  let res := snd (result_of x) in
  fst (result_of x) = true /\
  (load res 5 = x03 /\ load res 6 = x02 /\ load res 7 = x01 /\ load res 8 = x2c) /\
  read_sizes (trace_of r) = [10] /\
  (fst (result_of r) = true /\
   InfoT (snd (result_of r))
   = (to_string (uchar (load res 5)) ++ "." ++ to_string (uchar (load res 6)) ++
      " (" ++ to_string (256 * uchar (load res 7) + uchar (load res 8)) ++ ")")%string) /\
  InfoT (snd (result_of r)) = "3.2 (300)"%string.
Proof.
  cbn zeta.
  pose proof (Handshake_version signed_char_platform example_header ReplayPort _
                (DeltaT_init "Delta") [(TTY_OK, version_reply)])
    as (_ & _ & _ & Hgen & Hex).
  cbn zeta in Hgen, Hex.
  split; [vm_compute; reflexivity|].
  split; [vm_compute; repeat split; reflexivity|].
  split; [vm_compute; reflexivity|].
  split.
  - apply Hgen; [vm_compute; reflexivity|].
    intros _. vm_compute. repeat split; reflexivity.
  - apply Hex; vm_compute; reflexivity.
Defined.

(** C6 as stated fails: the response [Handshake] asks for has ten
    bytes, not six. *)
Lemma Handshake_reads_ten_bytes :
  let r := Handshake (DeltaT_init "Delta") ([(TTY_OK, version_reply)] : ReplayPort) in
  fst (result_of r) = true /\
  frames_written (trace_of r) = [[x3b; x03; x20; x32; xfe; xad]] /\
  read_sizes (trace_of r) = [10] /\
  ~ Forall (fun n => n = 6) (read_sizes (trace_of r)).
Proof.
  vm_compute. repeat split; try reflexivity.
  intros H. inversion H as [|n l E _]. discriminate E.
Qed.

(** Where [char] is signed, a low build byte from [0x80] on overwrites
    the high byte: build bytes [01 90] are reported as 65424, not 400. *)
Example build_number_sign_extended :
  build_number [x3b; x07; x32; x20; xfe; x03; x02; x01; x90; x13] = 65424.
Proof. vm_compute. reflexivity. Qed.

(** C7 fails on the code.  Connect, disconnect, connect again to a
    device that reports two heaters each time: the disconnect deletes
    the five properties of the first pass from the host, but the
    vectors are not cleared, so after the second discovery pass the
    collections hold four entries each - the two of the first pass
    followed by the two of the second - while the count most recently
    reported is two, and every heater property is defined twice under
    the same name. *)
Theorem heater_entries_survive_reconnect :
  let p : ReplayPort :=
    [(TTY_OK, version_reply); (TTY_OK, heater_count_reply_low);
     (TTY_OK, version_reply); (TTY_OK, heater_count_reply_low)] in
  let r := host_run (DeltaT_init "Delta")
             [CallHandshake; CallUpdateProperties true;
              CallUpdateProperties false;
              CallHandshake; CallUpdateProperties true] p in
  detected_heaters (trace_of r) = [2; 2] /\
  map svp_name (HeaterControlSP (result_of r))
  = ["DEW_0d"; "DEW_1d"; "DEW_0d"; "DEW_1d"]%string /\
  map nvp_name (HeaterParamNP (result_of r))
  = ["PARAM_0d"; "PARAM_1d"; "PARAM_0d"; "PARAM_1d"]%string /\
  length (HeaterControlS (result_of r)) = 4%nat /\
  length (HeaterParamN (result_of r)) = 4%nat /\
  ~ (Z.of_nat (length (HeaterControlSP (result_of r)))
     = last (detected_heaters (trace_of r)) 0) /\
  ~ (Z.of_nat (length (HeaterParamNP (result_of r)))
     = last (detected_heaters (trace_of r)) 0) /\
  host_updates (trace_of r)
  = [EvDefineText "INFO";
     EvDefineSwitch "DEW_0d"; EvDefineSwitch "DEW_1d";
     EvDefineNumber "PARAM_0d"; EvDefineNumber "PARAM_1d";
     EvDeleteProperty "INFO";
     EvDeleteProperty "DEW_0d"; EvDeleteProperty "DEW_1d";
     EvDeleteProperty "PARAM_0d"; EvDeleteProperty "PARAM_1d";
     EvDefineText "INFO";
     EvDefineSwitch "DEW_0d"; EvDefineSwitch "DEW_1d";
     EvDefineSwitch "DEW_0d"; EvDefineSwitch "DEW_1d";
     EvDefineNumber "PARAM_0d"; EvDefineNumber "PARAM_1d";
     EvDefineNumber "PARAM_0d"; EvDefineNumber "PARAM_1d"].
Proof.
  vm_compute. repeat split; try reflexivity; intros E; discriminate E.
Qed.

Lemma mutated_frame_rejected_witness :
  2 <= 10 < 4294967296 /\
  10 <= Z.of_nat (length version_reply) /\
  uchar (load version_reply (10 - 1)) = calculateCheckSum version_reply 10 /\
  1 <= 5 <= 10 - 2 /\
  x04 <> load version_reply 5 /\
  checksum_differs (store version_reply 5 x04) 10 = true /\
  forall (cmd res : buffer) (cmd_len : Z) (p : ReplayPort),
    snd (result_of (sendCommand cmd res cmd_len 10 p)) = store version_reply 5 x04 ->
    fst (result_of (sendCommand cmd res cmd_len 10 p)) = false.
Proof.
  assert (H1 : 2 <= 10 < 4294967296) by lia.
  assert (H2 : 10 <= Z.of_nat (length version_reply)) by (simpl; lia).
  assert (H3 : uchar (load version_reply (10 - 1)) = calculateCheckSum version_reply 10)
    by (vm_compute; reflexivity).
  assert (H4 : 1 <= 5 <= 10 - 2) by lia.
  assert (H5 : x04 <> load version_reply 5) by (vm_compute; discriminate).
  repeat (split; [assumption|]).
  exact (mutated_frame_rejected signed_char_platform example_header ReplayPort _
           version_reply 10 5 x04 H1 H2 H3 H4 H5).
Defined.

(** C9 as stated fails: neither command writes a frame, and neither
    returns success. *)
Lemma force_commands_send_nothing :
  let reboot := forceReboot (DeltaT_init "Delta") silent_port in
  let reset := forceReset (DeltaT_init "Delta") silent_port in
  ~ (exists frame, In frame (frames_written (trace_of reboot))) /\
  ~ (exists frame, In frame (frames_written (trace_of reset))) /\
  fst (result_of reboot) = false /\
  fst (result_of reset) = false.
Proof.
  cbn. repeat split; try reflexivity; intros [frame []].
Qed.

Lemma start_marker_not_checked_witness :
  let g : Garbled ReplayPort :=
    {| inner := [(TTY_OK, version_reply)]; marker := x00 |} in
  let clean := sendCommand (query_frame CMD_GET_VERSION) (zeroed DRIVER_LEN) 6 10 (inner g) in
  let garbled := sendCommand (query_frame CMD_GET_VERSION) (zeroed DRIVER_LEN) 6 10 g in
  2 <= 10 < 4294967296 /\
  load (snd (result_of clean)) 0 = x3b /\
  load (snd (result_of garbled)) 0 = x00 /\
  fst (result_of clean) = true /\
  fst (result_of garbled) = fst (result_of clean) /\
  failures (trace_of garbled) = failures (trace_of clean) /\
  inner (port_of garbled) = port_of clean /\
  forall i, 1 <= i ->
    load (snd (result_of garbled)) i = load (snd (result_of clean)) i.
Proof.
  cbn zeta.
  assert (H1 : 2 <= 10 < 4294967296) by lia.
  split; [exact H1|].
  split; [vm_compute; reflexivity|].
  split; [vm_compute; reflexivity|].
  split; [vm_compute; reflexivity|].
  exact (start_marker_not_checked signed_char_platform example_header ReplayPort _
           (query_frame CMD_GET_VERSION) (zeroed DRIVER_LEN) 6 10
           {| inner := [(TTY_OK, version_reply)]; marker := x00 |} H1).
Defined.

End SignedCharBuild.

(** ** On a build with unsigned [char] *)

Section UnsignedCharBuild.

#[local] Existing Instance unsigned_char_platform.
#[local] Existing Instance example_header.

(** The reply rejected above is accepted here, and four heaters are created. *)
Example correct_checksum_accepted :
  let r := initializeHeaters (DeltaT_init "Delta")
             ([(TTY_OK, heater_count_reply)] : ReplayPort) in
  fst (result_of r) = true /\
  detected_heaters (trace_of r) = [4] /\
  length (HeaterControlSP (snd (result_of r))) = 4%nat.
Proof. vm_compute. repeat split; reflexivity. Qed.

End UnsignedCharBuild.

(** ** Further runs *)

Section FurtherRuns.

#[local] Existing Instance signed_char_platform.
#[local] Existing Instance example_header.

Lemma sendCommand_write_failure_witness :
  let p : ScriptedPort := {| write_results := [TTY_OK; TTY_WRITE_ERROR]; replies := [] |} in
  let r := sendCommand (query_frame CMD_GET_VERSION) (zeroed DRIVER_LEN) 6 10 p in
  (exists rc, In rc (write_codes (trace_of r)) /\ rc <> TTY_OK) /\
  read_codes (trace_of r) = [TTY_TIME_OUT] /\
  fst (result_of r) = false /\
  failures (trace_of r) = [IoError] /\
  Forall (fun rc => rc <> TTY_OK) (read_codes (trace_of r)) /\
  exists rcw,
    rcw <> TTY_OK /\
    write_codes (trace_of r) = repeat TTY_OK (length (read_codes (trace_of r))) ++ [rcw] /\
    error_logs (trace_of r) = [MsgSerialWriteError rcw] /\
    last (trace_of r) (EvSleep 0) = EvLog LError (MsgSerialWriteError rcw).
Proof.
  cbn zeta.
  assert (H : exists rc,
             In rc (write_codes
                      (trace_of (sendCommand (query_frame CMD_GET_VERSION)
                                   (zeroed DRIVER_LEN) 6 10
                                   {| write_results := [TTY_OK; TTY_WRITE_ERROR];
                                      replies := [] |})))
             /\ rc <> TTY_OK).
  { exists TTY_WRITE_ERROR. split; [vm_compute; right; left; reflexivity|discriminate]. }
  split; [exact H|]. split; [vm_compute; reflexivity|].
  exact (sendCommand_write_failure signed_char_platform example_header ScriptedPort _
           (query_frame CMD_GET_VERSION) (zeroed DRIVER_LEN) 6 10
           {| write_results := [TTY_OK; TTY_WRITE_ERROR]; replies := [] |} H).
Defined.

Lemma checksum_zero_sum_witness :
  2 <= 10 < 4294967296 /\
  10 <= Z.of_nat (length version_reply) /\
  uchar (load version_reply (10 - 1)) = calculateCheckSum version_reply 10 /\
  signed_sum (firstn (Z.to_nat (10 - 1)) (skipn 1 version_reply)) mod 256 = 0.
Proof.
  assert (H1 : 2 <= 10 < 4294967296) by lia.
  assert (H2 : 10 <= Z.of_nat (length version_reply)) by (simpl; lia).
  split; [exact H1|]. split; [exact H2|].
  assert (H3 : uchar (load version_reply (10 - 1)) = calculateCheckSum version_reply 10)
    by (vm_compute; reflexivity).
  split; [exact H3|].
  exact (proj1 (checksum_zero_sum signed_char_platform version_reply 10 H1 H2) H3).
Defined.

Lemma transposition_undetected_witness :
  2 <= 10 < 4294967296 /\
  10 <= Z.of_nat (length version_reply) /\
  1 <= 5 <= 10 - 2 /\
  1 <= 6 <= 10 - 2 /\
  swap_bytes version_reply 5 6 = [x3b; x07; x32; x20; xfe; x02; x03; x01; x2c; x77] /\
  calculateCheckSum (swap_bytes version_reply 5 6) 10 = calculateCheckSum version_reply 10 /\
  checksum_differs (swap_bytes version_reply 5 6) 10 = checksum_differs version_reply 10.
Proof.
  assert (H1 : 2 <= 10 < 4294967296) by lia.
  assert (H2 : 10 <= Z.of_nat (length version_reply)) by (simpl; lia).
  assert (H3 : 1 <= 5 <= 10 - 2) by lia.
  assert (H4 : 1 <= 6 <= 10 - 2) by lia.
  repeat (split; [assumption|]).
  split; [vm_compute; reflexivity|].
  exact (transposition_undetected signed_char_platform version_reply 10 5 6 H1 H2 H3 H4).
Defined.

Lemma zero_frame_accepted_witness :
  1 <= 10 < 4294967296 /\
  calculateCheckSum (x3b :: zeroed 31) 10 = 0 /\
  checksum_differs (x3b :: zeroed 31) 10 = false.
Proof.
  assert (H1 : 1 <= 10 < 4294967296) by lia.
  split; [exact H1|].
  apply (zero_frame_accepted signed_char_platform (x3b :: zeroed 31) 10 H1).
  - intros i Hi.
    assert (E : i = 1 \/ i = 2 \/ i = 3 \/ i = 4 \/ i = 5 \/ i = 6 \/ i = 7 \/ i = 8 \/ i = 9)
      by lia.
    repeat (destruct E as [E|E]); subst i; reflexivity.
  - intros E. discriminate E.
Defined.

Lemma hexDump_spaced_witness :
  0 <= 6 <= Z.of_nat (length heater_count_reply) /\
  hexDump heater_count_reply 6 = "3B 03 32 20 04 A7"%string /\
  hexDump heater_count_reply 6 = spaced_hex (firstn (Z.to_nat 6) heater_count_reply) /\
  (6 = 0 -> hexDump heater_count_reply 6 = EmptyString) /\
  (0 < 6 -> Z.of_nat (String.length (hexDump heater_count_reply 6)) = 3 * 6 - 1).
Proof.
  assert (H1 : 0 <= 6 <= Z.of_nat (length heater_count_reply)) by (simpl; lia).
  split; [exact H1|]. split; [vm_compute; reflexivity|].
  exact (hexDump_spaced heater_count_reply 6 H1).
Defined.

Lemma hexDump_injective_witness :
  let data := heater_count_reply ++ [x01; x02] in
  let data' := heater_count_reply ++ [xff] in
  0 <= 6 <= Z.of_nat (length data) /\
  6 <= Z.of_nat (length data') /\
  hexDump data 6 = hexDump data' 6 /\
  firstn (Z.to_nat 6) data = firstn (Z.to_nat 6) data'.
Proof.
  cbn zeta.
  assert (H1 : 0 <= 6 <= Z.of_nat (length (heater_count_reply ++ [x01; x02])))
    by (simpl; lia).
  assert (H2 : 6 <= Z.of_nat (length (heater_count_reply ++ [xff]))) by (simpl; lia).
  assert (H3 : hexDump (heater_count_reply ++ [x01; x02]) 6
               = hexDump (heater_count_reply ++ [xff]) 6) by (vm_compute; reflexivity).
  repeat (split; [assumption|]).
  exact (hexDump_injective _ _ 6 H1 H2 H3).
Defined.

Lemma Handshake_accepts_empty_answer_witness :
  let self := DeltaT_init "Delta" in
  let p : ReplayPort := [(TTY_OK, [])] in
  tty_write p (firstn 6 (query_frame CMD_GET_VERSION)) = (TTY_OK, p) /\
  tty_read p 10 DRIVER_TIMEOUT = (TTY_OK, [], ([] : ReplayPort)) /\
  Forall (fun c => c = x00) ([] : list byte) /\
  result_of (Handshake self p) = (true, IUSaveText self "0.0 (0)") /\
  port_of (Handshake self p) = ([] : ReplayPort) /\
  error_logs (trace_of (Handshake self p)) = [].
Proof.
  cbn zeta.
  assert (H1 : tty_write ([(TTY_OK, [])] : ReplayPort)
                 (firstn 6 (query_frame CMD_GET_VERSION))
               = (TTY_OK, ([(TTY_OK, [])] : ReplayPort))) by reflexivity.
  assert (H2 : tty_read ([(TTY_OK, [])] : ReplayPort) 10 DRIVER_TIMEOUT
               = (TTY_OK, [], ([] : ReplayPort))) by reflexivity.
  assert (H3 : Forall (fun c => c = x00) ([] : list byte)) by constructor.
  repeat (split; [assumption|]).
  exact (Handshake_accepts_empty_answer signed_char_platform example_header ReplayPort _
           (DeltaT_init "Delta") _ _ _ _ H1 H2 H3).
Defined.

Lemma query_frame_checksum_witness :
  (6 <= DRIVER_LEN)%nat /\
  firstn 6 (query_frame CMD_GET_VERSION) = [x3b; x03; x20; x32; xfe; xad] /\
  firstn 5 (query_frame CMD_GET_VERSION)
  = [DRIVER_SOM; char_of_Z 3; DEVICE_PC; DEVICE_DELTA; CMD_GET_VERSION] /\
  uchar (load (query_frame CMD_GET_VERSION) 5)
  = calculateCheckSum (query_frame CMD_GET_VERSION) 6.
Proof.
  assert (H1 : (6 <= DRIVER_LEN)%nat) by (vm_compute; lia).
  split; [exact H1|]. split; [vm_compute; reflexivity|].
  exact (@query_frame_checksum signed_char_platform example_header CMD_GET_VERSION H1).
Defined.

(** A scan of the whole session on a port that fails at the second
    write of the heater count query. *)
Example discovery_write_failure :
  let p : ScriptedPort :=
    {| write_results := [TTY_OK; TTY_OK; TTY_PORT_FAILURE];
       replies := [(TTY_OK, version_reply); (TTY_TIME_OUT, [])] |} in
  let r := host_run (DeltaT_init "Delta") [CallHandshake; CallUpdateProperties true] p in
  InfoT (result_of r) = "3.2 (300)"%string /\
  HeaterControlSP (result_of r) = [] /\
  failures (trace_of r) = [IoError] /\
  host_updates (trace_of r) = [EvDefineText "INFO"].
Proof. vm_compute. repeat split; reflexivity. Qed.

End FurtherRuns.
